(** * Boards categories: lifecycle and ordering (server/boards/app/category.go)

    A shallow embedding of the [app] layer that manages board categories,
    together with the properties its specification states about it.

    The application layer talks to two collaborators through Go interfaces:
    the persistence [Store] and the websocket adapter.  The store is kept
    abstract (a type class over an arbitrary state type); every call the
    application makes to it is recorded in a trace, and so is every
    notification it hands to a goroutine.  Properties of the form "the store
    is never asked to do X" are statements about that trace. *)

From Stdlib Require Import ZArith List Permutation.
From stdpp Require Import base decidable option list sets gmap strings pretty.

Local Open Scope string_scope.
Local Open Scope list_scope.
Local Open Scope Z_scope.

(** ** Data model *)

(** Modelled from the spec: [model.Category], which is declared in package
    [model]; the fields are those of the specification's data model.  Identifiers and names are Go strings, timestamps are int64
    milliseconds. *)
Record Category := mkCategory {
  ID : string;
  Name : string;
  UserID : string;
  TeamID : string;
  CreateAt : Z;
  UpdateAt : Z;
  DeleteAt : Z;
  SortOrder : Z;
  Type_ : string
}.

(** Modelled from the spec: [model.CategoryTypeSystem] and its sibling, the
    two values of the category type enumeration. *)
Definition CategoryTypeSystem : string := "system".
Definition CategoryTypeCustom : string := "custom".

(** Field assignments [category.F = v]. *)
Definition set_Type (v : string) (c : Category) : Category :=
  mkCategory (ID c) (Name c) (UserID c) (TeamID c) (CreateAt c) (UpdateAt c)
             (DeleteAt c) (SortOrder c) v.
Definition set_Name (v : string) (c : Category) : Category :=
  mkCategory (ID c) v (UserID c) (TeamID c) (CreateAt c) (UpdateAt c)
             (DeleteAt c) (SortOrder c) (Type_ c).
Definition set_DeleteAt (v : Z) (c : Category) : Category :=
  mkCategory (ID c) (Name c) (UserID c) (TeamID c) (CreateAt c) (UpdateAt c)
             v (SortOrder c) (Type_ c).
Definition set_UpdateAt (v : Z) (c : Category) : Category :=
  mkCategory (ID c) (Name c) (UserID c) (TeamID c) (CreateAt c) v
             (DeleteAt c) (SortOrder c) (Type_ c).

(** Modelled from the spec: a category together with its ordered board
    membership records, each of which references a board identifier. *)
Record CategoryBoardMetadata := mkCategoryBoardMetadata {
  BoardID : string
}.

Record CategoryBoards := mkCategoryBoards {
  cbCategory : Category;
  BoardMetadata : list CategoryBoardMetadata
}.

(** [model.QueryUserCategoriesOptions], as the paged read is called. *)
Record QueryUserCategoriesOptions := mkQueryUserCategoriesOptions {
  Page : Z;
  PerPage : Z
}.

(** Modelled from the spec: the sentinel name of the default category (the
    constant [defaultCategoryBoards] is declared in a sibling file). *)
Definition defaultCategoryBoards : string := "Boards".

(** ** Errors *)

(** Arguments of [fmt.Errorf] other than the wrapped error. *)
Inductive fmt_arg :=
| ArgInt (n : Z)
| ArgString (s : string).

(** Go error values.  The first four are the package variables declared at
    the top of category.go; the [model] errors and [errNoDefaultCategoryFound]
    are referenced by the code and declared elsewhere.  [ErrOther] stands for
    any other error value a collaborator may return.  [Errorf] is
    [fmt.Errorf] with one [%w] verb: it wraps [cause]. *)
Inductive error :=
| errCategoryNotFound
| errCategoriesLengthMismatch
| ErrCannotDeleteSystemCategory
| ErrCannotUpdateSystemCategory
| ErrCategoryDeleted
| ErrCategoryPermissionDenied
| NewErrInvalidCategory (msg : string)
| errNoDefaultCategoryFound
| ErrOther (msg : string)
| Errorf (format : string) (cause : error) (args : list fmt_arg).

#[global] Instance fmt_arg_eq_dec : EqDecision fmt_arg.
Proof. solve_decision. Defined.

#[global] Instance error_eq_dec : EqDecision error.
Proof. solve_decision. Defined.

#[global] Instance Category_eq_dec : EqDecision Category.
Proof. solve_decision. Defined.

(** [errors.Is]: [target] is [e] itself or is reached by unwrapping. *)
Fixpoint errors_Is (e target : error) : bool :=
  if decide (e = target) then true
  else match e with
       | Errorf _ cause _ => errors_Is cause target
       | _ => false
       end.

(** ** Go [int] *)

(** [page] is a Go [int] (64 bits on the supported platforms); [page++]
    wraps around in two's complement. *)
Definition int_wrap (n : Z) : Z := (n + 2 ^ 63) mod 2 ^ 64 - 2 ^ 63.
Definition int_incr (n : Z) : Z := int_wrap (n + 1).

Definition perPage : Z := 50.

(** ** Collaborators *)

(** The persistence interface, as far as this file uses it.  A store is a
    state and, for each method, a transition returning the method's result.
    Reads are transitions too: nothing is assumed about the implementation.

    category.go calls the first six methods; the callers of the last two
    are declared in a sibling file. *)
Class Store (S : Type) := {
  storeGetCategory : string → S → (error + Category) * S;
  storeCreateCategory : Category → S → option error * S;
  storeUpdateCategory : Category → S → option error * S;
  storeDeleteCategory : string → string → string → S → option error * S;
  storeGetUserCategories :
    string → string → QueryUserCategoriesOptions → S → (error + list Category) * S;
  storeReorderCategories :
    string → string → list string → S → (error + list string) * S;
  (** Modelled from the spec: the paged read behind the board-aware
      enumeration. *)
  storeGetUserCategoryBoards :
    string → string → QueryUserCategoriesOptions → S → (error + list CategoryBoards) * S;
  (** Modelled from the spec: the association update
      [AddUpdateUserCategoryBoard(teamID, userID, categoryID, boardIDs)]. *)
  storeAddUpdateUserCategoryBoard :
    string → string → string → list string → S → option error * S
}.

(** What the code uses from [model] and [utils] and is declared elsewhere:
    [Category.Hydrate] (it may draw a fresh identifier and read the clock,
    hence the state), [Category.IsValid] and [utils.GetMillis]. *)
Class Runtime (R : Type) := {
  Hydrate : Category → R → Category * R;
  IsValid : Category → option error;
  GetMillis : R → Z * R
}.

(** Notifications handed to the websocket adapter. *)
Inductive Notification :=
| BroadcastCategoryChange (category : Category)
| BroadcastCategoryReorder (teamID userID : string) (categoryOrder : list string).

(** What the application does to its collaborators, in program order: a call
    of a store method with its arguments, or the start of a goroutine that
    broadcasts a notification. *)
Inductive Event :=
| CallGetCategory (categoryID : string)
| CallCreateCategory (category : Category)
| CallUpdateCategory (category : Category)
| CallDeleteCategory (categoryID userID teamID : string)
| CallGetUserCategories (userID teamID : string) (opts : QueryUserCategoriesOptions)
| CallReorderCategories (userID teamID : string) (newCategoryOrder : list string)
| CallGetUserCategoryBoards (userID teamID : string) (opts : QueryUserCategoriesOptions)
| CallAddUpdateUserCategoryBoard (teamID userID categoryID : string) (boardIDs : list string)
| Go (n : Notification).

(** Store writes, as opposed to reads and notifications. *)
Definition is_write (e : Event) : bool :=
  match e with
  | CallCreateCategory _ | CallUpdateCategory _ | CallDeleteCategory _ _ _
  | CallReorderCategories _ _ _ | CallAddUpdateUserCategoryBoard _ _ _ _ => true
  | _ => false
  end.

Definition is_notification (e : Event) : bool :=
  match e with Go _ => true | _ => false end.

Definition is_store_delete (e : Event) : bool :=
  match e with CallDeleteCategory _ _ _ => true | _ => false end.

Definition is_store_reorder (e : Event) : bool :=
  match e with CallReorderCategories _ _ _ => true | _ => false end.

Definition is_migration (e : Event) : bool :=
  match e with
  | CallGetUserCategoryBoards _ _ _ | CallAddUpdateUserCategoryBoard _ _ _ _ => true
  | _ => false
  end.

Section App.

Context {S R : Type} `{!Store S} `{!Runtime R}.

(** The state the application runs against. *)
Record World := mkWorld {
  w_store : S;
  w_runtime : R;
  w_trace : list Event
}.

(** The state after a run that started in [w], left the store in [s] and
    the runtime in [rt], and did [evs]. *)
Definition after (w : World) (s : S) (rt : R) (evs : list Event) : World :=
  mkWorld s rt (w_trace w ++ evs).

(** A computation returns its Go result and the new state, or [None] when
    the fuel given to an enumeration loop ran out before the loop ended. *)
Definition M (A : Type) : Type := World → option (A * World).

Definition ret {A} (a : A) : M A := λ w, Some (a, w).

Definition bind {A B} (m : M A) (k : A → M B) : M B :=
  λ w, match m w with
       | Some (a, w') => k a w'
       | None => None
       end.

Definition out_of_fuel {A} : M A := λ _, None.

Notation "x <- m ;; k" := (bind m (λ x, k))
  (at level 100, m at next level, right associativity).

(** A store method call: record it, then let the store act. *)
Definition call {A} (e : Event) (method : S → A * S) : M A :=
  λ w, let '(r, s') := method (w_store w) in
       Some (r, mkWorld s' (w_runtime w) (w_trace w ++ [e])).

(** A call into [model] or [utils] that may use the clock. *)
Definition sys {A} (f : R → A * R) : M A :=
  λ w, let '(r, rt') := f (w_runtime w) in
       Some (r, mkWorld (w_store w) rt' (w_trace w)).

(** [go func() { a.wsAdapter.Broadcast...(...) }()] *)
Definition go (n : Notification) : M unit :=
  λ w, Some (tt, mkWorld (w_store w) (w_runtime w) (w_trace w ++ [Go n])).

Definition a_store_GetCategory (categoryID : string) : M (error + Category) :=
  call (CallGetCategory categoryID) (storeGetCategory categoryID).
Definition a_store_CreateCategory (category : Category) : M (option error) :=
  call (CallCreateCategory category) (storeCreateCategory category).
Definition a_store_UpdateCategory (category : Category) : M (option error) :=
  call (CallUpdateCategory category) (storeUpdateCategory category).
Definition a_store_DeleteCategory (categoryID userID teamID : string) : M (option error) :=
  call (CallDeleteCategory categoryID userID teamID)
       (storeDeleteCategory categoryID userID teamID).
Definition a_store_GetUserCategories (userID teamID : string)
    (opts : QueryUserCategoriesOptions) : M (error + list Category) :=
  call (CallGetUserCategories userID teamID opts)
       (storeGetUserCategories userID teamID opts).
Definition a_store_ReorderCategories (userID teamID : string)
    (newCategoryOrder : list string) : M (error + list string) :=
  call (CallReorderCategories userID teamID newCategoryOrder)
       (storeReorderCategories userID teamID newCategoryOrder).
Definition a_store_GetUserCategoryBoards (userID teamID : string)
    (opts : QueryUserCategoriesOptions) : M (error + list CategoryBoards) :=
  call (CallGetUserCategoryBoards userID teamID opts)
       (storeGetUserCategoryBoards userID teamID opts).
Definition a_store_AddUpdateUserCategoryBoard (teamID userID categoryID : string)
    (boardIDs : list string) : M (option error) :=
  call (CallAddUpdateUserCategoryBoard teamID userID categoryID boardIDs)
       (storeAddUpdateUserCategoryBoard teamID userID categoryID boardIDs).

(** ** Enumeration *)

(** The visitor closures in this file only update the local variables they
    capture; [A] is the type of these variables.  A visitor returns
    [(done, err)]. *)
Definition Visitor (T A : Type) : Type := T → A → (bool * option error) * A.

(** [for _, x := range xs { if done, err := fn(x); err != nil || done { return err } }]
    The result is [Some err] when the loop returned from the enclosing
    function, [None] when it ran to the end of [xs]. *)
Fixpoint range_visit {T A} (fn : Visitor T A) (xs : list T) (acc : A)
    : option (option error) * A :=
  match xs with
  | [] => (None, acc)
  | x :: xs' =>
      let '((done, err), acc') := fn x acc in
      if negb (bool_decide (err = None)) || done then (Some err, acc')
      else range_visit fn xs' acc'
  end.

(** The loop of [ForEachUserCategory], from page [page] on. *)
Fixpoint ForEachUserCategory_from {A} (fuel : nat) (page : Z)
    (userID teamID : string) (fn : Visitor Category A) (acc : A)
    : M (option error * A) :=
  match fuel with
  | O => out_of_fuel
  | Datatypes.S fuel' =>
      r <- a_store_GetUserCategories userID teamID
             (mkQueryUserCategoriesOptions page perPage) ;;
      match r with
      | inl err => ret (Some err, acc)
      | inr categories =>
          match range_visit fn categories acc with
          | (Some err, acc') => ret (err, acc')
          | (None, acc') =>
              if bool_decide (Z.of_nat (length categories) < perPage)
              then ret (None, acc')
              else ForEachUserCategory_from fuel' (int_incr page) userID teamID fn acc'
          end
      end
  end.

Definition ForEachUserCategory {A} (fuel : nat) (userID teamID : string)
    (fn : Visitor Category A) (acc : A) : M (option error * A) :=
  ForEachUserCategory_from fuel 0 userID teamID fn acc.

(** Modelled from the spec: the board-aware variant of the enumeration (its
    declaration is in a sibling file of the package).  It follows the same
    contract as [ForEachUserCategory], over pages of [CategoryBoards]. *)
Fixpoint ForEachUserCategoryBoard_from {A} (fuel : nat) (page : Z)
    (userID teamID : string) (fn : Visitor CategoryBoards A) (acc : A)
    : M (option error * A) :=
  match fuel with
  | O => out_of_fuel
  | Datatypes.S fuel' =>
      r <- a_store_GetUserCategoryBoards userID teamID
             (mkQueryUserCategoriesOptions page perPage) ;;
      match r with
      | inl err => ret (Some err, acc)
      | inr categoryBoards =>
          match range_visit fn categoryBoards acc with
          | (Some err, acc') => ret (err, acc')
          | (None, acc') =>
              if bool_decide (Z.of_nat (length categoryBoards) < perPage)
              then ret (None, acc')
              else ForEachUserCategoryBoard_from fuel' (int_incr page) userID teamID fn acc'
          end
      end
  end.

(** Modelled from the spec: the board-aware enumeration starts at page 0,
    as [ForEachUserCategory] does. *)
Definition ForEachUserCategoryBoard {A} (fuel : nat) (userID teamID : string)
    (fn : Visitor CategoryBoards A) (acc : A) : M (option error * A) :=
  ForEachUserCategoryBoard_from fuel 0 userID teamID fn acc.

(** Modelled from the spec: the bulk reassignment of boards to a category is
    a single association-update call to the store (the method is declared in
    a sibling file of the package). *)
Definition AddUpdateUserCategoryBoard (teamID userID categoryID : string)
    (boardIDs : list string) : M (option error) :=
  a_store_AddUpdateUserCategoryBoard teamID userID categoryID boardIDs.

(** Both enumerations run the same loop; [forEachPage] is that loop over any
    paged read [get], whose calls are recorded as [ev]. *)
Fixpoint forEachPage {T A} (ev : QueryUserCategoriesOptions → Event)
    (get : QueryUserCategoriesOptions → S → (error + list T) * S)
    (fuel : nat) (page : Z) (fn : Visitor T A) (acc : A) : M (option error * A) :=
  match fuel with
  | O => out_of_fuel
  | Datatypes.S fuel' =>
      r <- call (ev (mkQueryUserCategoriesOptions page perPage))
                (get (mkQueryUserCategoriesOptions page perPage)) ;;
      match r with
      | inl err => ret (Some err, acc)
      | inr xs =>
          match range_visit fn xs acc with
          | (Some err, acc') => ret (err, acc')
          | (None, acc') =>
              if bool_decide (Z.of_nat (length xs) < perPage)
              then ret (None, acc')
              else forEachPage ev get fuel' (int_incr page) fn acc'
          end
      end
  end.

(** The requests of [n] pages in a row, from [page] on. *)
Fixpoint page_calls (ev : QueryUserCategoriesOptions → Event) (page : Z) (n : nat)
    : list Event :=
  match n with
  | O => []
  | Datatypes.S n' =>
      ev (mkQueryUserCategoriesOptions page perPage) :: page_calls ev (int_incr page) n'
  end.

(** [all_pages get page s n xs s']: read page after page from [page] on,
    the store in state [s] returns [n] pages without error, all full but the
    last one; together they hold [xs], and the store is left in [s']. *)
Inductive all_pages {T} (get : QueryUserCategoriesOptions → S → (error + list T) * S)
    : Z → S → nat → list T → S → Prop :=
| all_pages_last page s xs s' :
    get (mkQueryUserCategoriesOptions page perPage) s = (inr xs, s') →
    Z.of_nat (length xs) < perPage →
    all_pages get page s 1 xs s'
| all_pages_next page s xs s' n rest s'' :
    get (mkQueryUserCategoriesOptions page perPage) s = (inr xs, s') →
    (perPage ≤ Z.of_nat (length xs))%Z →
    all_pages get (int_incr page) s' n rest s'' →
    all_pages get page s (Datatypes.S n) (xs ++ rest) s''.

(** *** The enumeration contract, as the specification words it *)

(** The visitor is applied to the items in order until it signals: the
    outcome is [Some err] when it signalled (done, or an error) at some
    item, [None] when it went through all of them. *)
Inductive Visits {T A} (fn : Visitor T A) : list T → A → option (option error) → A → Prop :=
| Visits_nil acc :
    Visits fn [] acc None acc
| Visits_continue x xs acc acc1 out acc2 :
    fn x acc = ((false, None), acc1) →
    Visits fn xs acc1 out acc2 →
    Visits fn (x :: xs) acc out acc2
| Visits_signal x xs acc done err acc1 :
    fn x acc = ((done, err), acc1) →
    done = true ∨ err ≠ None →
    Visits fn (x :: xs) acc (Some err) acc1.

(** [Enumerates get fn k s acc k' r acc' s']: pages [k], [k+1], ..., [k'-1]
    are requested, fifty items each; the enumeration ends at the first page
    on which the store fails (its error is the result), the visitor signals
    (its error, if any, is the result) or fewer than fifty items come back. *)
Inductive Enumerates {T A} (get : QueryUserCategoriesOptions → S → (error + list T) * S)
    (fn : Visitor T A) : nat → S → A → nat → option error → A → S → Prop :=
| Enumerates_store_error k s acc err s' :
    get (mkQueryUserCategoriesOptions (Z.of_nat k) 50) s = (inl err, s') →
    Enumerates get fn k s acc (Datatypes.S k) (Some err) acc s'
| Enumerates_visitor_stops k s acc xs s' err acc' :
    get (mkQueryUserCategoriesOptions (Z.of_nat k) 50) s = (inr xs, s') →
    Visits fn xs acc (Some err) acc' →
    Enumerates get fn k s acc (Datatypes.S k) err acc' s'
| Enumerates_last_page k s acc xs s' acc' :
    get (mkQueryUserCategoriesOptions (Z.of_nat k) 50) s = (inr xs, s') →
    Visits fn xs acc None acc' →
    (length xs < 50)%nat →
    Enumerates get fn k s acc (Datatypes.S k) None acc' s'
| Enumerates_next_page k s acc xs s' acc' k' r acc'' s'' :
    get (mkQueryUserCategoriesOptions (Z.of_nat k) 50) s = (inr xs, s') →
    Visits fn xs acc None acc' →
    (50 ≤ length xs)%nat →
    Enumerates get fn (Datatypes.S k) s' acc' k' r acc'' s'' →
    Enumerates get fn k s acc k' r acc'' s''.

(** ** Category lifecycle *)

Definition GetCategory (categoryID : string) : M (error + Category) :=
  a_store_GetCategory categoryID.

Definition CreateCategory (category : Category) : M (error + Category) :=
  category <- sys (Hydrate category) ;;
  match IsValid category with
  | Some err => ret (inl err)
  | None =>
      err <- a_store_CreateCategory category ;;
      match err with
      | Some err => ret (inl err)
      | None =>
          r <- a_store_GetCategory (ID category) ;;
          match r with
          | inl err => ret (inl err)
          | inr createdCategory =>
              _ <- go (BroadcastCategoryChange createdCategory) ;;
              ret (inr createdCategory)
          end
      end
  end.

Definition UpdateCategory (category : Category) : M (error + Category) :=
  category <- sys (Hydrate category) ;;
  match IsValid category with
  | Some err => ret (inl err)
  | None =>
      (* verify if category belongs to the user *)
      r <- a_store_GetCategory (ID category) ;;
      match r with
      | inl err => ret (inl err)
      | inr existingCategory =>
          if bool_decide (DeleteAt existingCategory ≠ 0) then
            ret (inl ErrCategoryDeleted)
          else if bool_decide (UserID existingCategory ≠ UserID category) then
            ret (inl ErrCategoryPermissionDenied)
          else if bool_decide (TeamID existingCategory ≠ TeamID category) then
            ret (inl ErrCategoryPermissionDenied)
          else
            (* in case type was defaulted above, set to existingCategory.Type *)
            let category := set_Type (Type_ existingCategory) category in
            let category :=
              if bool_decide (Type_ existingCategory = CategoryTypeSystem) then
                (* You cannot rename or delete a system category,
                   So restoring its name and undeleting it if set so. *)
                set_DeleteAt 0 (set_Name (Name existingCategory) category)
              else category in
            now <- sys GetMillis ;;
            let category := set_UpdateAt now category in
            match IsValid category with
            | Some err => ret (inl err)
            | None =>
                err <- a_store_UpdateCategory category ;;
                match err with
                | Some err => ret (inl err)
                | None =>
                    r <- a_store_GetCategory (ID category) ;;
                    match r with
                    | inl err => ret (inl err)
                    | inr updatedCategory =>
                        _ <- go (BroadcastCategoryChange updatedCategory) ;;
                        ret (inr updatedCategory)
                    end
                end
            end
      end
  end.

(** The closure of [moveBoardsToDefaultCategory].  It captures
    [sourceCategoryBoards] (a pointer, nil at first) and [defaultCategoryID]
    (the empty string at first). *)
Definition moveBoards_fn (sourceCategoryID : string)
    : Visitor CategoryBoards (option CategoryBoards * string) :=
  λ categoryBoards captured,
    let '(sourceCategoryBoards, defaultCategoryID) := captured in
    let sourceCategoryBoards :=
      if bool_decide (ID (cbCategory categoryBoards) = sourceCategoryID)
      then Some categoryBoards else sourceCategoryBoards in
    let defaultCategoryID :=
      if bool_decide (Name (cbCategory categoryBoards) = defaultCategoryBoards)
      then ID (cbCategory categoryBoards) else defaultCategoryID in
    (* if both categories are found, no need to iterate furthur. *)
    if bool_decide (sourceCategoryBoards ≠ None) && bool_decide (defaultCategoryID ≠ "")
    then ((true, None), (sourceCategoryBoards, defaultCategoryID))
    else ((false, None), (sourceCategoryBoards, defaultCategoryID)).

Definition moveBoardsToDefaultCategory (fuel : nat)
    (userID teamID sourceCategoryID : string) : M (option error) :=
  r <- ForEachUserCategoryBoard fuel userID teamID
         (moveBoards_fn sourceCategoryID) (None, "") ;;
  let '(err, (sourceCategoryBoards, defaultCategoryID)) := r in
  match err with
  | Some err => ret (Some err)
  | None =>
      match sourceCategoryBoards with
      | None => ret (Some errCategoryNotFound)
      | Some sourceCategoryBoards =>
          if bool_decide (defaultCategoryID = "") then
            ret (Some (Errorf "moveBoardsToDefaultCategory: %w" errNoDefaultCategoryFound []))
          else
            let boardIDs := map BoardID (BoardMetadata sourceCategoryBoards) in
            err <- AddUpdateUserCategoryBoard teamID userID defaultCategoryID boardIDs ;;
            match err with
            | Some err => ret (Some (Errorf "moveBoardsToDefaultCategory: %w" err []))
            | None => ret None
            end
      end
  end.

Definition DeleteCategory (fuel : nat) (categoryID userID teamID : string)
    : M (error + Category) :=
  r <- a_store_GetCategory categoryID ;;
  match r with
  | inl err => ret (inl err)
  | inr existingCategory =>
      (* category is already deleted. This avoids
         overriding the original deleted at timestamp *)
      if bool_decide (DeleteAt existingCategory ≠ 0) then
        ret (inr existingCategory)
      (* verify if category belongs to the user *)
      else if bool_decide (UserID existingCategory ≠ userID) then
        ret (inl ErrCategoryPermissionDenied)
      (* verify if category belongs to the team *)
      else if bool_decide (TeamID existingCategory ≠ teamID) then
        ret (inl (NewErrInvalidCategory "category doesn't belong to the team"))
      else if bool_decide (Type_ existingCategory = CategoryTypeSystem) then
        ret (inl ErrCannotDeleteSystemCategory)
      else
        err <- moveBoardsToDefaultCategory fuel userID teamID categoryID ;;
        match err with
        | Some err => ret (inl err)
        | None =>
            err <- a_store_DeleteCategory categoryID userID teamID ;;
            match err with
            | Some err => ret (inl err)
            | None =>
                r <- a_store_GetCategory categoryID ;;
                match r with
                | inl err => ret (inl err)
                | inr deletedCategory =>
                    _ <- go (BroadcastCategoryChange deletedCategory) ;;
                    ret (inr deletedCategory)
                end
            end
        end
  end.

(** ** Category order *)

(** The identifiers of the listed categories, each once. *)
Definition existing_ids (categories : list Category) : gset string :=
  list_to_set (map ID categories).

(** The closure of [verifyNewCategoriesMatchExisting]: it captures
    [existingCategoriesMap], a [map[string]struct{}]. *)
Definition verify_fn : Visitor Category (gset string) :=
  λ category existingCategoriesMap,
    ((false, None), {[ID category]} ∪ existingCategoriesMap).

Definition errLengthMismatch (userID teamID : string) (lenNew lenExisting : nat) : error :=
  Errorf "%w length new categories: %d, length existing categories: %d, userID: %s, teamID: %s"
         errCategoriesLengthMismatch
         [ArgInt (Z.of_nat lenNew); ArgInt (Z.of_nat lenExisting);
          ArgString userID; ArgString teamID].

Definition errNotFound (userID teamID newCategoryID : string) : error :=
  Errorf "%w specified category ID: %s, userID: %s, teamID: %s"
         errCategoryNotFound
         [ArgString newCategoryID; ArgString userID; ArgString teamID].

(** [for _, newCategoryID := range newCategoryOrder { if !found { return ... } }] *)
Fixpoint range_found (existingCategoriesMap : gset string) (userID teamID : string)
    (newCategoryOrder : list string) : option error :=
  match newCategoryOrder with
  | [] => None
  | newCategoryID :: rest =>
      if bool_decide (newCategoryID ∈ existingCategoriesMap)
      then range_found existingCategoriesMap userID teamID rest
      else Some (errNotFound userID teamID newCategoryID)
  end.

Definition verifyNewCategoriesMatchExisting (fuel : nat) (userID teamID : string)
    (newCategoryOrder : list string) : M (option error) :=
  r <- ForEachUserCategory fuel userID teamID verify_fn ∅ ;;
  let '(err, existingCategoriesMap) := r in
  match err with
  | Some err => ret (Some (Errorf "error fetching user categories: %w" err []))
  | None =>
      if bool_decide (length newCategoryOrder ≠ size existingCategoriesMap) then
        ret (Some (errLengthMismatch userID teamID
                     (length newCategoryOrder) (size existingCategoriesMap)))
      else
        ret (range_found existingCategoriesMap userID teamID newCategoryOrder)
  end.

Definition ReorderCategories (fuel : nat) (userID teamID : string)
    (newCategoryOrder : list string) : M (error + list string) :=
  err <- verifyNewCategoriesMatchExisting fuel userID teamID newCategoryOrder ;;
  match err with
  | Some err => ret (inl err)
  | None =>
      r <- a_store_ReorderCategories userID teamID newCategoryOrder ;;
      match r with
      | inl err => ret (inl err)
      | inr newOrder =>
          _ <- go (BroadcastCategoryReorder teamID userID newOrder) ;;
          ret (inr newOrder)
      end
  end.

End App.

Notation "x <- m ;; k" := (bind m (λ x, k))
  (at level 100, m at next level, right associativity).

(** ** An in-memory store

    A small implementation of the two interfaces, on which the operations
    can be run on concrete scenarios.  Rows are kept in category order; the
    store's clock stamps deletions. *)
Module Mem.

Record State := mkState {
  rows : list CategoryBoards;
  clock : Z
}.

Definition has_id (id : string) (cb : CategoryBoards) : bool :=
  bool_decide (ID (cbCategory cb) = id).

Definition in_scope (userID teamID : string) (cb : CategoryBoards) : bool :=
  bool_decide (UserID (cbCategory cb) = userID)
  && bool_decide (TeamID (cbCategory cb) = teamID)
  && bool_decide (DeleteAt (cbCategory cb) = 0).

Fixpoint lookup_row (id : string) (l : list CategoryBoards) : option CategoryBoards :=
  match l with
  | [] => None
  | cb :: l' => if has_id id cb then Some cb else lookup_row id l'
  end.

Definition page_of {T} (opts : QueryUserCategoriesOptions) (l : list T) : list T :=
  take (Z.to_nat (PerPage opts)) (drop (Z.to_nat (Page opts * PerPage opts)) l).

Definition getCategory (id : string) (s : State) : (error + Category) * State :=
  match lookup_row id (rows s) with
  | Some cb => (inr (cbCategory cb), s)
  | None => (inl (ErrOther "category not found"), s)
  end.

Definition createCategory (c : Category) (s : State) : option error * State :=
  (None, mkState (rows s ++ [mkCategoryBoards c []]) (clock s)).

Definition updateCategory (c : Category) (s : State) : option error * State :=
  (None,
   mkState (map (λ cb, if has_id (ID c) cb
                       then mkCategoryBoards c (BoardMetadata cb) else cb) (rows s))
           (clock s)).

Definition deleteCategory (id userID teamID : string) (s : State) : option error * State :=
  (None,
   mkState (map (λ cb, if has_id id cb && in_scope userID teamID cb
                       then mkCategoryBoards (set_DeleteAt (clock s) (cbCategory cb))
                                             (BoardMetadata cb)
                       else cb) (rows s))
           (clock s + 1)).

Definition getUserCategoryBoards (userID teamID : string)
    (opts : QueryUserCategoriesOptions) (s : State) : (error + list CategoryBoards) * State :=
  (inr (page_of opts (filter (λ cb, in_scope userID teamID cb = true) (rows s))), s).

Definition getUserCategories (userID teamID : string)
    (opts : QueryUserCategoriesOptions) (s : State) : (error + list Category) * State :=
  (inr (map cbCategory
          (page_of opts (filter (λ cb, in_scope userID teamID cb = true) (rows s)))), s).

(** The named categories first, each once and in the requested order, then
    the others; the committed order of the scope is returned. *)
Definition reorderCategories (userID teamID : string) (order : list string)
    (s : State) : (error + list string) * State :=
  let named :=
    concat (map (λ id, filter (λ cb, has_id id cb && in_scope userID teamID cb = true) (rows s))
                (remove_dups order)) in
  let others :=
    filter (λ cb, ¬ (ID (cbCategory cb) ∈ order ∧ in_scope userID teamID cb = true)) (rows s) in
  let rows' := named ++ others in
  (inr (map (λ cb, ID (cbCategory cb))
            (filter (λ cb, in_scope userID teamID cb = true) rows')),
   mkState rows' (clock s)).

(** A board belongs to one category of the scope: it is taken out of the
    others and appended to the target. *)
Definition addUpdateUserCategoryBoard (teamID userID categoryID : string)
    (boardIDs : list string) (s : State) : option error * State :=
  let without (cb : CategoryBoards) :=
    filter (λ m, BoardID m ∉ boardIDs) (BoardMetadata cb) in
  (None,
   mkState (map (λ cb, if in_scope userID teamID cb then
                         if has_id categoryID cb
                         then mkCategoryBoards (cbCategory cb)
                                (without cb ++ map mkCategoryBoardMetadata boardIDs)
                         else mkCategoryBoards (cbCategory cb) (without cb)
                       else cb) (rows s))
           (clock s)).

#[global] Instance store : Store State := {|
  storeGetCategory := getCategory;
  storeCreateCategory := createCategory;
  storeUpdateCategory := updateCategory;
  storeDeleteCategory := deleteCategory;
  storeGetUserCategories := getUserCategories;
  storeReorderCategories := reorderCategories;
  storeGetUserCategoryBoards := getUserCategoryBoards;
  storeAddUpdateUserCategoryBoard := addUpdateUserCategoryBoard
|}.

(** The runtime is a millisecond clock.  Hydration fills in the type and the
    creation time when they are missing; validation wants an identifier, a
    name, an owner, a team and a known type. *)
Definition hydrate (c : Category) (now : Z) : Category * Z :=
  let c := if bool_decide (Type_ c = "") then set_Type CategoryTypeCustom c else c in
  let c := if bool_decide (CreateAt c = 0)
           then mkCategory (ID c) (Name c) (UserID c) (TeamID c) now (UpdateAt c)
                           (DeleteAt c) (SortOrder c) (Type_ c)
           else c in
  (c, now).

Definition isValid (c : Category) : option error :=
  if bool_decide (ID c = "") then Some (NewErrInvalidCategory "category ID cannot be empty")
  else if bool_decide (Name c = "") then Some (NewErrInvalidCategory "category name cannot be empty")
  else if bool_decide (UserID c = "") then Some (NewErrInvalidCategory "category user ID cannot be empty")
  else if bool_decide (TeamID c = "") then Some (NewErrInvalidCategory "category team id ID cannot be empty")
  else if bool_decide (Type_ c = CategoryTypeCustom ∨ Type_ c = CategoryTypeSystem) then None
  else Some (NewErrInvalidCategory "invalid category type").

#[global] Instance runtime : Runtime Z := {|
  Hydrate := hydrate;
  IsValid := isValid;
  GetMillis := λ now, (now, now + 1)
|}.

Definition world (rs : list CategoryBoards) : World :=
  mkWorld (mkState rs 5000) 7000 [].

(** Sample data: user "u1" in team "t1". *)
Definition category (id name type : string) (deleteAt : Z) : Category :=
  mkCategory id name "u1" "t1" 1000 1000 deleteAt 0 type.

Definition row (id name type : string) (boards : list string) : CategoryBoards :=
  mkCategoryBoards (category id name type 0) (map mkCategoryBoardMetadata boards).

Definition default_row : CategoryBoards := row "d" "Boards" "system" ["b0"].
Definition work_row : CategoryBoards := row "w" "Work" "custom" ["b1"; "b2"].
Definition home_row : CategoryBoards := row "h" "Home" "custom" [].
Definition gone_row : CategoryBoards :=
  mkCategoryBoards (category "g" "Gone" "custom" 4000) [].

Definition small : list CategoryBoards := [default_row; work_row; gone_row].

(** Sixty custom categories "c0" ... "c59" after the default one: the scope
    takes two pages. *)
Definition numbered (n : nat) : CategoryBoards :=
  row ("c" +:+ pretty n) ("Category " +:+ pretty n) "custom" [].

Definition large : list CategoryBoards :=
  default_row :: map numbered (seq 0 60).

(** An update of the default category that tries to rename it, to mark it
    deleted and to make it a custom category; and its hydrated form. *)
Definition renamed_default : Category :=
  mkCategory "d" "Renamed" "u1" "t1" 0 0 99 0 "custom".

Definition hydrated_default : Category :=
  mkCategory "d" "Renamed" "u1" "t1" 7000 0 99 0 "custom".

(** What that update writes at time 7000: the stored name and type, and a
    zero [DeleteAt]. *)
Definition written_default : Category :=
  mkCategory "d" "Boards" "u1" "t1" 7000 7000 0 0 "system".

(** The store of [small] once that record has been written. *)
Definition after_update : State :=
  (updateCategory written_default (mkState small 5000)).2.

(** The state left by deleting "Work" once, and the record that delete
    returned. *)
Definition after_delete : World :=
  match DeleteCategory 1 "w" "u1" "t1" (world small) with
  | Some (_, w) => w
  | None => world small
  end.

Definition deleted_work : Category :=
  mkCategory "w" "Work" "u1" "t1" 1000 1000 5000 0 "custom".

(** The state in which the migration of "Work" starts, and the one it
    leaves. *)
Definition after_read_work : World :=
  after (world small) (w_store (world small)) 7000 [CallGetCategory "w"].

Definition after_migration : World :=
  match moveBoardsToDefaultCategory 1 "u1" "t1" "w" after_read_work with
  | Some (_, w) => w
  | None => after_read_work
  end.

(** A new category, as a client sends it. *)
Definition new_home : Category :=
  mkCategory "h" "Home" "u1" "t1" 1000 0 0 0 "custom".

(** The store of [small] once that category has been created. *)
Definition after_create : State :=
  mkState (small ++ [mkCategoryBoards new_home []]) 5000.

(** An update of "Work" that renames it, marks it deleted and claims the
    system type. *)
Definition trashed_work : Category :=
  mkCategory "w" "Old work" "u1" "t1" 1000 0 99 0 "system".

(** What that update writes at time 7000. *)
Definition written_work : Category :=
  mkCategory "w" "Old work" "u1" "t1" 1000 7000 99 0 "custom".

(** An update of "Work" that names another team. *)
Definition moved_work : Category :=
  mkCategory "w" "Work" "u1" "t2" 1000 0 0 0 "custom".

End Mem.


(** ** A scripted store

    A store that answers from a script, whatever state it is in: it gives
    the error paths and the listings an in-memory store never produces. *)
Module Mock.

Record State := mkState {
  get : string → error + Category;
  categories : Z → error + list Category;
  boards : Z → error + list CategoryBoards;
  reorder : list string → error + list string;
  write : option error
}.

#[global] Instance store : Store State := {|
  storeGetCategory := λ id s, (get s id, s);
  storeCreateCategory := λ _ s, (write s, s);
  storeUpdateCategory := λ _ s, (write s, s);
  storeDeleteCategory := λ _ _ _ s, (write s, s);
  storeGetUserCategories := λ _ _ opts s, (categories s (Page opts), s);
  storeReorderCategories := λ _ _ order s, (reorder s order, s);
  storeGetUserCategoryBoards := λ _ _ opts s, (boards s (Page opts), s);
  storeAddUpdateUserCategoryBoard := λ _ _ _ _ s, (write s, s)
|}.

Definition world (s : State) : World := mkWorld s 7000 [].

(** A store that knows "Work" and lists [listing] as the only page. *)
Definition listing (l : list CategoryBoards) : State :=
  mkState (λ _, inr (cbCategory Mem.work_row))
          (λ _, inr (map cbCategory l))
          (λ _, inr l)
          (λ order, inr order)
          None.

(** A store that commits every order with the default category first. *)
Definition pinned : State :=
  mkState (λ _, inr (cbCategory Mem.work_row))
          (λ _, inr [cbCategory Mem.default_row; cbCategory Mem.work_row])
          (λ _, inr [Mem.default_row; Mem.work_row])
          (λ order, inr ("d" :: filter (λ id, id ≠ "d") order))
          None.

(** A store whose second page of categories fails. *)
Definition flaky : State :=
  mkState (λ _, inl (ErrOther "connection lost"))
          (λ page, if bool_decide (page = 0)
                   then inr (map cbCategory (take 50 Mem.large))
                   else inl (ErrOther "connection lost"))
          (λ _, inl (ErrOther "connection lost"))
          (λ _, inl (ErrOther "connection lost"))
          (Some (ErrOther "connection lost")).

(** A store that accepts every write and cannot read a category back. *)
Definition unreadable : State :=
  mkState (λ _, inl (ErrOther "connection lost"))
          (λ _, inr [])
          (λ _, inr [])
          (λ order, inr order)
          None.

(** A store that ignores the page number: every page is the same full page. *)
Definition endless : State :=
  mkState (λ _, inr (cbCategory Mem.work_row))
          (λ _, inr (map cbCategory (take 50 Mem.large)))
          (λ _, inr (take 50 Mem.large))
          (λ order, inr order)
          None.

End Mock.

(** * Properties *)

Section Run.

Context {S R : Type} `{!Store S} `{!Runtime R}.

Implicit Types (w : World (S:=S) (R:=R)) (s : S).
Implicit Types (userID teamID categoryID : string) (fuel : nat).

Lemma after_nil w : after w (w_store w) (w_runtime w) [] = w.
Proof. destruct w; unfold after; simpl. by rewrite app_nil_r. Qed.

Lemma after_after w s rt evs s' rt' evs' :
  after (after w s rt evs) s' rt' evs' = after w s' rt' (evs ++ evs').
Proof. unfold after; simpl. by rewrite app_assoc. Qed.

Lemma run_call {A B} (e : Event) (method : S → A * S) (k : A → M B) w r s' :
  method (w_store w) = (r, s') →
  bind (call e method) k w = k r (after w s' (w_runtime w) [e]).
Proof. intros E. unfold bind, call. by rewrite E. Qed.

Lemma run_sys {A B} (f : R → A * R) (k : A → M B) w r rt' :
  f (w_runtime w) = (r, rt') →
  bind (sys f) k w = k r (mkWorld (w_store w) rt' (w_trace w)).
Proof. intros E. unfold bind, sys. by rewrite E. Qed.

Lemma run_go {B} (n : Notification) (k : unit → M B) w :
  bind (go n) k w = k tt (after w (w_store w) (w_runtime w) [Go n]).
Proof. reflexivity. Qed.

End Run.

(** One step of a run: the next call's outcome is known by [E]. *)
Ltac step_call E :=
  unfold a_store_GetCategory, a_store_CreateCategory, a_store_UpdateCategory,
    a_store_DeleteCategory, a_store_GetUserCategories, a_store_ReorderCategories,
    a_store_GetUserCategoryBoards, a_store_AddUpdateUserCategoryBoard;
  erewrite run_call; [| exact E]; simpl.
Ltac step_sys E := erewrite run_sys; [| exact E]; simpl.

(** ** Runs on the sample data *)

(** Deleting "Work": the record is read, the boards of "Work" go to the
    default category, then the store deletes, the record is read again and
    the change is broadcast. *)
Example delete_work_trace :
  option_map (λ p, (p.1, w_trace p.2)) (DeleteCategory 1 "w" "u1" "t1" (Mem.world Mem.small))
  = Some (inr Mem.deleted_work,
          [CallGetCategory "w";
           CallGetUserCategoryBoards "u1" "t1" (mkQueryUserCategoriesOptions 0 50);
           CallAddUpdateUserCategoryBoard "t1" "u1" "d" ["b1"; "b2"];
           CallDeleteCategory "w" "u1" "t1";
           CallGetCategory "w";
           Go (BroadcastCategoryChange Mem.deleted_work)]).
Proof. reflexivity. Qed.

(** The closure of the migration stops the enumeration once it has seen both
    categories: of a listing whose pages are all full it reads one page. *)
Example migration_stops_early :
  option_map (λ p, (p.1, w_trace p.2))
    (moveBoardsToDefaultCategory 1 "u1" "t1" "c3" (Mem.world Mem.large))
  = Some (None,
          [CallGetUserCategoryBoards "u1" "t1" (mkQueryUserCategoriesOptions 0 50);
           CallAddUpdateUserCategoryBoard "t1" "u1" "d" []]).
Proof. vm_compute. reflexivity. Qed.

(** Two pages need fuel for two turns of the loop. *)
Example large_needs_two_turns :
  ForEachUserCategory 1 "u1" "t1" verify_fn ∅ (Mem.world Mem.large) = None.
Proof. vm_compute. reflexivity. Qed.

Example int_incr_wraps : int_incr (2 ^ 63 - 1) = - 2 ^ 63.
Proof. reflexivity. Qed.

Example errors_Is_wrapped :
  errors_Is (errNotFound "u1" "t1" "x") errCategoryNotFound = true
  ∧ errors_Is (errNotFound "u1" "t1" "x") errCategoriesLengthMismatch = false.
Proof. split; reflexivity. Qed.

(** ** DeleteCategory: the checks that precede the migration *)

Section DeleteChecks.

Context {S R : Type} `{!Store S} `{!Runtime R}.

Implicit Types (w : World (S:=S) (R:=R)) (s : S).
Implicit Types (userID teamID categoryID : string) (fuel : nat).

(** What [DeleteCategory] does once the store has returned the record. *)
Lemma DeleteCategory_read fuel categoryID userID teamID w r s1 :
  storeGetCategory categoryID (w_store w) = (r, s1) →
  DeleteCategory fuel categoryID userID teamID w =
  let w1 := after w s1 (w_runtime w) [CallGetCategory categoryID] in
  match r with
  | inl err => Some (inl err, w1)
  | inr existingCategory =>
      if bool_decide (DeleteAt existingCategory ≠ 0) then Some (inr existingCategory, w1)
      else if bool_decide (UserID existingCategory ≠ userID) then
        Some (inl ErrCategoryPermissionDenied, w1)
      else if bool_decide (TeamID existingCategory ≠ teamID) then
        Some (inl (NewErrInvalidCategory "category doesn't belong to the team"), w1)
      else if bool_decide (Type_ existingCategory = CategoryTypeSystem) then
        Some (inl ErrCannotDeleteSystemCategory, w1)
      else
        match moveBoardsToDefaultCategory fuel userID teamID categoryID w1 with
        | None => None
        | Some (Some err, w2) => Some (inl err, w2)
        | Some (None, w2) =>
            (err <- a_store_DeleteCategory categoryID userID teamID ;;
             match err with
             | Some err => ret (inl err)
             | None =>
                 r <- a_store_GetCategory categoryID ;;
                 match r with
                 | inl err => ret (inl err)
                 | inr deletedCategory =>
                     _ <- go (BroadcastCategoryChange deletedCategory) ;;
                     ret (inr deletedCategory)
                 end
             end) w2
        end
  end.
Proof.
  intros E. unfold DeleteCategory, a_store_GetCategory.
  rewrite (run_call _ _ _ _ _ _ E). simpl.
  destruct r as [err|existingCategory]; [done|].
  repeat case_bool_decide; try done.
  unfold bind at 1.
  destruct (moveBoardsToDefaultCategory _ _ _ _ _) as [[[err|] w2]|]; done.
Qed.

(** C5. Deleting a category that is already soft-deleted succeeds and
    returns the stored record as it is.  The only thing the call does is the
    read of that record: no store write, no notification, so the deletion
    time is not overwritten.  And as long as the store keeps returning that
    record, any further delete returns it again, with the same [DeleteAt]. *)
Theorem DeleteCategory_already_deleted fuel categoryID userID teamID w existing s1 :
  storeGetCategory categoryID (w_store w) = (inr existing, s1) →
  DeleteAt existing ≠ 0 →
  let w1 := after w s1 (w_runtime w) [CallGetCategory categoryID] in
  DeleteCategory fuel categoryID userID teamID w = Some (inr existing, w1)
  ∧ filter (λ e, is_write e = true) [CallGetCategory categoryID] = []
  ∧ filter (λ e, is_notification e = true) [CallGetCategory categoryID] = []
  ∧ ∀ fuel' userID' teamID' s2,
      storeGetCategory categoryID s1 = (inr existing, s2) →
      DeleteCategory fuel' categoryID userID' teamID' w1 =
      Some (inr existing, after w1 s2 (w_runtime w) [CallGetCategory categoryID]).
Proof.
  intros E Hdel w1.
  assert (Hrun : ∀ fuel0 u t w0 s0,
             storeGetCategory categoryID (w_store w0) = (inr existing, s0) →
             DeleteCategory fuel0 categoryID u t w0 =
             Some (inr existing, after w0 s0 (w_runtime w0) [CallGetCategory categoryID])).
  { intros fuel0 u t w0 s0 E0. rewrite (DeleteCategory_read _ _ _ _ _ _ _ E0). simpl.
    by rewrite bool_decide_eq_true_2. }
  repeat split.
  - by apply Hrun.
  - intros fuel' userID' teamID' s2 E2. by apply (Hrun fuel' userID' teamID' w1 s2).
Qed.

(** C10. The already-deleted check comes before the ownership and team
    checks: a caller who is not the owner, or who names another team, and
    deletes an already deleted category gets the record back, not a
    permission error. *)
Theorem DeleteCategory_deleted_before_ownership
    fuel categoryID userID teamID w existing s1 :
  storeGetCategory categoryID (w_store w) = (inr existing, s1) →
  DeleteAt existing ≠ 0 →
  UserID existing ≠ userID ∨ TeamID existing ≠ teamID →
  DeleteCategory fuel categoryID userID teamID w =
    Some (inr existing, after w s1 (w_runtime w) [CallGetCategory categoryID])
  ∧ DeleteCategory fuel categoryID userID teamID w ≠
    Some (inl ErrCategoryPermissionDenied,
          after w s1 (w_runtime w) [CallGetCategory categoryID]).
Proof.
  intros E Hdel _.
  rewrite (DeleteCategory_read _ _ _ _ _ _ _ E). simpl.
  rewrite bool_decide_eq_true_2 by done. split; [done | congruence].
Qed.

(** C7. On an active category, a caller who is not the owner is refused with
    the permission error; the owner naming another team is refused with an
    invalid-category error, which is not the permission error.  Either way
    the call has only read the record. *)
Theorem DeleteCategory_ownership fuel categoryID userID teamID w existing s1 :
  storeGetCategory categoryID (w_store w) = (inr existing, s1) →
  DeleteAt existing = 0 →
  let w1 := after w s1 (w_runtime w) [CallGetCategory categoryID] in
  let errTeam := NewErrInvalidCategory "category doesn't belong to the team" in
  (UserID existing ≠ userID →
     DeleteCategory fuel categoryID userID teamID w =
     Some (inl ErrCategoryPermissionDenied, w1))
  ∧ (UserID existing = userID → TeamID existing ≠ teamID →
     DeleteCategory fuel categoryID userID teamID w = Some (inl errTeam, w1))
  ∧ errors_Is errTeam ErrCategoryPermissionDenied = false
  ∧ filter (λ e, is_write e = true) [CallGetCategory categoryID] = [].
Proof.
  intros E Hdel w1 errTeam.
  rewrite (DeleteCategory_read _ _ _ _ _ _ _ E). simpl.
  rewrite bool_decide_eq_false_2 by (intros ?; done).
  repeat split.
  - intros Hu. by rewrite bool_decide_eq_true_2.
  - intros Hu Ht. rewrite bool_decide_eq_false_2 by (intros ?; done).
    by rewrite bool_decide_eq_true_2.
Qed.

(** C4. Deleting an active system category, by its owner and in its team, is
    refused with [ErrCannotDeleteSystemCategory].  The call has only read
    the record: the migration is not started and the store is not asked to
    delete, so the store is left as the read left it. *)
Theorem DeleteCategory_system fuel categoryID userID teamID w existing s1 :
  storeGetCategory categoryID (w_store w) = (inr existing, s1) →
  DeleteAt existing = 0 →
  UserID existing = userID →
  TeamID existing = teamID →
  Type_ existing = CategoryTypeSystem →
  ∃ w', DeleteCategory fuel categoryID userID teamID w =
          Some (inl ErrCannotDeleteSystemCategory, w')
      ∧ w_trace w' = w_trace w ++ [CallGetCategory categoryID]
      ∧ w_store w' = s1
      ∧ filter (λ e, is_migration e = true) (w_trace w') =
        filter (λ e, is_migration e = true) (w_trace w)
      ∧ filter (λ e, is_store_delete e = true) (w_trace w') =
        filter (λ e, is_store_delete e = true) (w_trace w).
Proof.
  intros E Hdel Hu Ht Hty.
  rewrite (DeleteCategory_read _ _ _ _ _ _ _ E). simpl.
  rewrite bool_decide_eq_false_2 by (intros ?; done).
  rewrite bool_decide_eq_false_2 by (intros ?; done).
  rewrite bool_decide_eq_false_2 by (intros ?; done).
  rewrite bool_decide_eq_true_2 by done.
  eexists. split; [done|]. simpl.
  rewrite !filter_app. simpl. by rewrite !app_nil_r.
Qed.

End DeleteChecks.

Lemma DeleteCategory_already_deleted_witness :
  storeGetCategory "w" (w_store Mem.after_delete)
    = (inr Mem.deleted_work, w_store Mem.after_delete)
  ∧ DeleteAt Mem.deleted_work ≠ 0
  ∧ DeleteCategory 1 "w" "u1" "t1" (Mem.world Mem.small)
    = Some (inr Mem.deleted_work, Mem.after_delete)
  ∧ DeleteCategory 1 "w" "u1" "t1" Mem.after_delete
    = Some (inr Mem.deleted_work,
            after Mem.after_delete (w_store Mem.after_delete)
                  (w_runtime Mem.after_delete) [CallGetCategory "w"]).
Proof.
  split; [reflexivity|]. split; [done|]. split; [reflexivity|].
  apply (DeleteCategory_already_deleted 1 "w" "u1" "t1" Mem.after_delete
           Mem.deleted_work (w_store Mem.after_delete)); [reflexivity | done].
Defined.

Lemma DeleteCategory_deleted_before_ownership_witness :
  storeGetCategory "g" (w_store (Mem.world Mem.small))
    = (inr (Mem.category "g" "Gone" "custom" 4000), w_store (Mem.world Mem.small))
  ∧ DeleteAt (Mem.category "g" "Gone" "custom" 4000) ≠ 0
  ∧ (UserID (Mem.category "g" "Gone" "custom" 4000) ≠ "u2"
     ∨ TeamID (Mem.category "g" "Gone" "custom" 4000) ≠ "t2")
  ∧ DeleteCategory 0 "g" "u2" "t2" (Mem.world Mem.small)
    = Some (inr (Mem.category "g" "Gone" "custom" 4000),
            after (Mem.world Mem.small) (w_store (Mem.world Mem.small))
                  (w_runtime (Mem.world Mem.small)) [CallGetCategory "g"]).
Proof.
  split; [reflexivity|]. split; [done|]. split; [by left|].
  apply (DeleteCategory_deleted_before_ownership 0 "g" "u2" "t2" (Mem.world Mem.small)
           (Mem.category "g" "Gone" "custom" 4000) (w_store (Mem.world Mem.small)));
    [reflexivity | done | by left].
Defined.

Lemma DeleteCategory_ownership_witness :
  storeGetCategory "w" (w_store (Mem.world Mem.small))
    = (inr (cbCategory Mem.work_row), w_store (Mem.world Mem.small))
  ∧ DeleteAt (cbCategory Mem.work_row) = 0
  ∧ DeleteCategory 1 "w" "u2" "t1" (Mem.world Mem.small)
    = Some (inl ErrCategoryPermissionDenied,
            after (Mem.world Mem.small) (w_store (Mem.world Mem.small))
                  (w_runtime (Mem.world Mem.small)) [CallGetCategory "w"])
  ∧ DeleteCategory 1 "w" "u1" "t2" (Mem.world Mem.small)
    = Some (inl (NewErrInvalidCategory "category doesn't belong to the team"),
            after (Mem.world Mem.small) (w_store (Mem.world Mem.small))
                  (w_runtime (Mem.world Mem.small)) [CallGetCategory "w"]).
Proof.
  split; [reflexivity|]. split; [reflexivity|]. split.
  - apply (DeleteCategory_ownership 1 "w" "u2" "t1" (Mem.world Mem.small)
             (cbCategory Mem.work_row) (w_store (Mem.world Mem.small)));
      [reflexivity | reflexivity | done].
  - apply (DeleteCategory_ownership 1 "w" "u1" "t2" (Mem.world Mem.small)
             (cbCategory Mem.work_row) (w_store (Mem.world Mem.small)));
      [reflexivity | reflexivity | reflexivity | done].
Defined.

Lemma DeleteCategory_system_witness :
  storeGetCategory "d" (w_store (Mem.world Mem.small))
    = (inr (cbCategory Mem.default_row), w_store (Mem.world Mem.small))
  ∧ DeleteAt (cbCategory Mem.default_row) = 0
  ∧ UserID (cbCategory Mem.default_row) = "u1"
  ∧ TeamID (cbCategory Mem.default_row) = "t1"
  ∧ Type_ (cbCategory Mem.default_row) = CategoryTypeSystem
  ∧ ∃ w', DeleteCategory 1 "d" "u1" "t1" (Mem.world Mem.small)
          = Some (inl ErrCannotDeleteSystemCategory, w')
        ∧ w_trace w' = [CallGetCategory "d"]
        ∧ w_store w' = w_store (Mem.world Mem.small).
Proof.
  do 5 (split; [reflexivity|]).
  destruct (DeleteCategory_system 1 "d" "u1" "t1" (Mem.world Mem.small)
              (cbCategory Mem.default_row) (w_store (Mem.world Mem.small)))
    as (w' & Hrun & Htr & Hst & _); [reflexivity..|].
  exists w'. by repeat split.
Defined.

(** ** UpdateCategory: what is written *)

Section Update.

Context {S R : Type} `{!Store S} `{!Runtime R}.

Implicit Types (w : World (S:=S) (R:=R)) (s : S).

(** C1. When the category exists, is active and belongs to the same user and
    team as the (hydrated) input, every write [UpdateCategory] makes to the
    store is an update whose category carries the stored type, whatever type
    the caller passed; and when the stored type is system, it also carries
    the stored name and a zero [DeleteAt], whatever the caller passed for
    them.  A call that succeeds has made such a write.

    The update is corrected, not refused: the record [written] is the
    hydrated input with the stored type, the clock's [UpdateAt] and, for a
    system category, the stored name and a zero [DeleteAt]; when the input
    and [written] are valid, the store is asked to update [written] right
    after the read, and that is the only write.  When [written] is not
    valid, its validation error is returned after the read. *)
Theorem UpdateCategory_immutable category w hydrated rt1 existing s1 :
  Hydrate category (w_runtime w) = (hydrated, rt1) →
  storeGetCategory (ID hydrated) (w_store w) = (inr existing, s1) →
  DeleteAt existing = 0 →
  UserID existing = UserID hydrated →
  TeamID existing = TeamID hydrated →
  let system := bool_decide (Type_ existing = CategoryTypeSystem) in
  let written :=
    mkCategory (ID hydrated)
               (if system then Name existing else Name hydrated)
               (UserID hydrated) (TeamID hydrated) (CreateAt hydrated)
               (GetMillis rt1).1
               (if system then 0 else DeleteAt hydrated)
               (SortOrder hydrated)
               (Type_ existing) in
  ∃ r w' evs,
    UpdateCategory category w = Some (r, w')
    ∧ w_trace w' = w_trace w ++ evs
    ∧ (∀ e, e ∈ evs → is_write e = true →
         ∃ written, e = CallUpdateCategory written
           ∧ Type_ written = Type_ existing
           ∧ (Type_ existing = CategoryTypeSystem →
                Name written = Name existing ∧ DeleteAt written = 0))
    ∧ (∀ updated, r = inr updated → ∃ written, CallUpdateCategory written ∈ evs)
    ∧ (∀ e, e ∈ evs → is_write e = true → e = CallUpdateCategory written)
    ∧ (IsValid hydrated = None → IsValid written = None →
         ∃ tail,
           evs = CallGetCategory (ID hydrated) :: CallUpdateCategory written :: tail
           ∧ Forall (λ e, is_write e = false) tail)
    ∧ (IsValid hydrated = None → ∀ err, IsValid written = Some err →
         r = inl err ∧ evs = [CallGetCategory (ID hydrated)]).
Proof.
  intros Ehyd Eget Hdel Hu Ht system written.
  unfold UpdateCategory.
  step_sys Ehyd.
  destruct (IsValid hydrated) as [err|] eqn:Ev1.
  { exists (inl err), (mkWorld (w_store w) rt1 (w_trace w)), []. simpl.
    rewrite app_nil_r. split_and!; try done; intros e He; by apply elem_of_nil in He. }
  step_call Eget.
  rewrite bool_decide_eq_false_2 by (intros ?; done).
  rewrite bool_decide_eq_false_2 by (intros ?; done).
  rewrite bool_decide_eq_false_2 by (intros ?; done).
  pose proof (surjective_pairing (GetMillis rt1)) as Enow.
  set (c0 := if bool_decide (Type_ existing = CategoryTypeSystem) then _ else _).
  assert (Heq : set_UpdateAt (GetMillis rt1).1 c0 = written).
  { subst c0 written system. by case_bool_decide. }
  clearbody c0.
  step_sys Enow.
  set (cw := set_UpdateAt (GetMillis rt1).1 c0) in *.
  clearbody cw.
  assert (Hwritten : Type_ cw = Type_ existing
                     ∧ (Type_ existing = CategoryTypeSystem →
                        Name cw = Name existing ∧ DeleteAt cw = 0)).
  { rewrite Heq. subst written system. simpl. split; [done|].
    intros Hsys. by rewrite bool_decide_eq_true_2. }
  assert (Hwrites : ∀ e tail,
             (∀ e', e' ∈ tail → is_write e' = false) →
             e ∈ CallGetCategory (ID hydrated) :: CallUpdateCategory cw :: tail →
             is_write e = true →
             e = CallUpdateCategory cw).
  { intros e tail Htail He Hw.
    apply elem_of_cons in He as [->|He]; [done|].
    apply elem_of_cons in He as [->|He]; [done|].
    apply Htail in He. congruence. }
  assert (Hshape : ∀ (r0 : error + Category) w0 tail,
             w_trace w0 =
               w_trace w ++ CallGetCategory (ID hydrated) :: CallUpdateCategory cw :: tail →
             IsValid cw = None →
             (∀ e', e' ∈ tail → is_write e' = false) →
             ∃ r w' evs,
               Some (r0, w0) = Some (r, w')
               ∧ w_trace w' = w_trace w ++ evs
               ∧ (∀ e, e ∈ evs → is_write e = true →
                    ∃ written, e = CallUpdateCategory written
                      ∧ Type_ written = Type_ existing
                      ∧ (Type_ existing = CategoryTypeSystem →
                           Name written = Name existing ∧ DeleteAt written = 0))
               ∧ (∀ updated, r = inr updated →
                    ∃ written, CallUpdateCategory written ∈ evs)
               ∧ (∀ e, e ∈ evs → is_write e = true → e = CallUpdateCategory written)
               ∧ (IsValid hydrated = None → IsValid written = None →
                    ∃ tail,
                      evs = CallGetCategory (ID hydrated)
                              :: CallUpdateCategory written :: tail
                      ∧ Forall (λ e, is_write e = false) tail)
               ∧ (IsValid hydrated = None → ∀ err, IsValid written = Some err →
                    r = inl err ∧ evs = [CallGetCategory (ID hydrated)])).
  { intros r0 w0 tail Htr Hv Htail.
    exists r0, w0, (CallGetCategory (ID hydrated) :: CallUpdateCategory cw :: tail).
    split_and!.
    - done.
    - exact Htr.
    - intros e He Hw. exists cw. split; [by eapply Hwrites|exact Hwritten].
    - intros _ _. exists cw. apply elem_of_cons. right. apply elem_of_cons. by left.
    - intros e He Hw. rewrite <- Heq. by eapply Hwrites.
    - intros _ _. exists tail. split; [by rewrite Heq|].
      apply Forall_forall. exact Htail.
    - intros _ err Hinvalid. rewrite <- Heq in Hinvalid. congruence. }
  rewrite Ev1 in Hshape.
  destruct (IsValid cw) as [err|] eqn:Ev2.
  { eexists _, _, [CallGetCategory (ID hydrated)]. split; [done|]. simpl.
    split_and!; try done.
    - intros e He Hw. by apply list_elem_of_singleton in He as ->.
    - intros e He Hw. by apply list_elem_of_singleton in He as ->.
    - intros _ Hvalid. rewrite <- Heq in Hvalid. congruence.
    - intros _ err' Hinvalid. rewrite <- Heq in Hinvalid. by simplify_eq. }
  destruct (storeUpdateCategory cw s1) as [err s2] eqn:Eupd.
  step_call Eupd.
  destruct err as [err|].
  { unfold ret. apply (Hshape _ _ []); [simpl; by rewrite <- app_assoc|done|].
    intros e' He'. by apply elem_of_nil in He'. }
  destruct (storeGetCategory (ID c0) s2) as [r s3] eqn:Eget2.
  step_call Eget2.
  destruct r as [err|updatedCategory].
  { unfold ret. apply (Hshape _ _ [CallGetCategory (ID c0)]);
      [simpl; by rewrite <- !app_assoc|done|].
    intros e' He'. by apply list_elem_of_singleton in He' as ->. }
  rewrite run_go. unfold ret.
  apply (Hshape _ _ [CallGetCategory (ID c0);
                     Go (BroadcastCategoryChange updatedCategory)]);
    [simpl; by rewrite <- !app_assoc|done|].
  intros e' He'. apply elem_of_cons in He' as [->|He']; [done|].
  by apply list_elem_of_singleton in He' as ->.
Qed.

End Update.

Lemma UpdateCategory_immutable_witness :
  Hydrate Mem.renamed_default (w_runtime (Mem.world Mem.small))
    = (Mem.hydrated_default, 7000)
  ∧ storeGetCategory (ID Mem.hydrated_default) (w_store (Mem.world Mem.small))
    = (inr (cbCategory Mem.default_row), w_store (Mem.world Mem.small))
  ∧ DeleteAt (cbCategory Mem.default_row) = 0
  ∧ UserID (cbCategory Mem.default_row) = UserID Mem.hydrated_default
  ∧ TeamID (cbCategory Mem.default_row) = TeamID Mem.hydrated_default
  ∧ IsValid Mem.hydrated_default = None
  ∧ IsValid Mem.written_default = None
  ∧ ∃ r w' evs,
      UpdateCategory Mem.renamed_default (Mem.world Mem.small) = Some (r, w')
      ∧ w_trace w' = evs
      ∧ (∀ e, e ∈ evs → is_write e = true →
           ∃ written, e = CallUpdateCategory written
             ∧ Type_ written = "system"
             ∧ Name written = "Boards" ∧ DeleteAt written = 0)
      ∧ (∀ updated, r = inr updated → ∃ written, CallUpdateCategory written ∈ evs)
      ∧ ∃ tail,
          evs = CallGetCategory "d" :: CallUpdateCategory Mem.written_default :: tail.
Proof.
  do 7 (split; [reflexivity|]).
  destruct (UpdateCategory_immutable Mem.renamed_default (Mem.world Mem.small)
              Mem.hydrated_default 7000 (cbCategory Mem.default_row)
              (w_store (Mem.world Mem.small)))
    as (r & w' & evs & Hrun & Htr & Hw & Hok & _ & Hdone & _); [reflexivity..|].
  exists r, w', evs. split_and!; [done | done | | done |].
  - intros e He Hwr. destruct (Hw e He Hwr) as (written & -> & Hty & Hsys).
    exists written. destruct (Hsys eq_refl). by repeat split.
  - destruct (Hdone eq_refl eq_refl) as (tail & Hevs & _). by exists tail.
Defined.

(** ** The enumeration loop *)

Section Paging.

Context {S R : Type} `{!Store S} `{!Runtime R}.
Context {T A : Type} (ev : QueryUserCategoriesOptions → Event).
Context (get : QueryUserCategoriesOptions → S → (error + list T) * S).

Implicit Types (w : World (S:=S) (R:=R)) (s : S) (fn : Visitor T A) (acc : A).
Implicit Types (fuel n k : nat) (page : Z) (xs : list T).

Lemma int_incr_of_nat k :
  Z.of_nat k + 1 < 2 ^ 63 → int_incr (Z.of_nat k) = Z.of_nat (Datatypes.S k).
Proof.
  intros Hk. unfold int_incr, int_wrap.
  rewrite Z.mod_small; lia.
Qed.

Lemma range_visit_app fn xs ys acc :
  range_visit fn (xs ++ ys) acc =
  match range_visit fn xs acc with
  | (Some r, acc') => (Some r, acc')
  | (None, acc') => range_visit fn ys acc'
  end.
Proof.
  revert acc. induction xs as [|x xs IH]; intros acc; simpl; [done|].
  destruct (fn x acc) as [[done err] acc1].
  destruct (negb _ || done); [done|]. apply IH.
Qed.

Lemma range_visit_Visits fn xs acc out acc' :
  range_visit fn xs acc = (out, acc') ↔ Visits fn xs acc out acc'.
Proof.
  split.
  - revert acc. induction xs as [|x xs IH]; intros acc; simpl.
    + intros [= <- <-]. constructor.
    + destruct (fn x acc) as [[done err] acc1] eqn:Efn.
      destruct done; simpl.
      * rewrite orb_true_r. intros [= <- <-]. eapply Visits_signal; eauto.
      * rewrite orb_false_r. case_bool_decide as Herr; simpl.
        -- subst err. intros Hrest. eapply Visits_continue; eauto.
        -- intros [= <- <-]. eapply Visits_signal; eauto.
  - induction 1 as [acc|x xs acc acc1 out acc2 Efn _ IH|x xs acc done err acc1 Efn Hsig]; simpl.
    + done.
    + by rewrite Efn.
    + rewrite Efn. destruct Hsig as [->|Herr].
      * by rewrite orb_true_r.
      * by rewrite bool_decide_eq_false_2.
Qed.

(** One turn of the loop. *)
Lemma forEachPage_step fuel page fn acc w :
  forEachPage ev get (Datatypes.S fuel) page fn acc w =
  let opts := mkQueryUserCategoriesOptions page perPage in
  let w1 := after w (get opts (w_store w)).2 (w_runtime w) [ev opts] in
  match (get opts (w_store w)).1 with
  | inl err => Some ((Some err, acc), w1)
  | inr xs =>
      match range_visit fn xs acc with
      | (Some err, acc') => Some ((err, acc'), w1)
      | (None, acc') =>
          if bool_decide (Z.of_nat (length xs) < perPage)
          then Some ((None, acc'), w1)
          else forEachPage ev get fuel (int_incr page) fn acc' w1
      end
  end.
Proof.
  simpl. unfold bind, call, after.
  destruct (get _ _) as [[err|xs] s']; simpl; [done|].
  destruct (range_visit fn xs acc) as [[err|] acc']; [done|].
  by case_bool_decide.
Qed.

(** A visitor that does not signal on any of the items the store lists is
    shown all of them, and the loop ends at the short page. *)
Lemma forEachPage_all_pages fn page s n xs s' :
  all_pages get page s n xs s' →
  ∀ acc acc' fuel w,
    w_store w = s →
    range_visit fn xs acc = (None, acc') →
    (n ≤ fuel)%nat →
    forEachPage ev get fuel page fn acc w =
    Some ((None, acc'), after w s' (w_runtime w) (page_calls ev page n)).
Proof.
  induction 1 as [page s xs s' Eget Hshort|page s xs s' n rest s'' Eget Hfull _ IH];
    intros acc acc' fuel w Hs Hvisit Hfuel;
    (destruct fuel as [|fuel]; [lia|]); rewrite forEachPage_step; simpl;
    rewrite Hs, Eget; simpl.
  - rewrite Hvisit. by rewrite bool_decide_eq_true_2.
  - rewrite range_visit_app in Hvisit.
    destruct (range_visit fn xs acc) as [[err|] acc1]; [done|].
    rewrite bool_decide_eq_false_2 by lia.
    erewrite (IH acc1 acc' fuel); [|reflexivity|exact Hvisit|lia].
    by rewrite after_after.
Qed.

(** Whatever the visitor does, the loop only reads pages, one after the
    other. *)
Lemma forEachPage_trace fuel :
  ∀ page fn acc w r w',
    forEachPage ev get fuel page fn acc w = Some (r, w') →
    ∃ s' n, w' = after w s' (w_runtime w) (page_calls ev page n) ∧ (1 ≤ n ≤ fuel)%nat.
Proof.
  induction fuel as [|fuel IH]; intros page fn acc w r w'; [done|].
  rewrite forEachPage_step; simpl.
  destruct (get _ _) as [[err|xs] s1]; simpl.
  { intros [= <- <-]. exists s1, 1%nat. split; [done | lia]. }
  destruct (range_visit fn xs acc) as [[err|] acc1].
  { intros [= <- <-]. exists s1, 1%nat. split; [done | lia]. }
  case_bool_decide.
  { intros [= <- <-]. exists s1, 1%nat. split; [done | lia]. }
  intros Hrec. apply IH in Hrec as (s' & n & -> & Hn).
  exists s', (Datatypes.S n). split; [|lia]. by rewrite after_after.
Qed.

(** The requests of pages [k], ..., [k + n - 1], fifty items each. *)
Lemma page_calls_seq n : ∀ k,
  Z.of_nat k + Z.of_nat n ≤ 2 ^ 63 →
  page_calls ev (Z.of_nat k) n =
  map (λ i, ev (mkQueryUserCategoriesOptions (Z.of_nat i) 50)) (seq k n).
Proof.
  induction n as [|n IH]; intros k Hk; simpl; [done|].
  f_equal. destruct n as [|n]; [done|].
  rewrite int_incr_of_nat by lia. apply IH. lia.
Qed.

(** The loop meets the contract ... *)
Lemma forEachPage_Enumerates fuel :
  ∀ k fn acc w r acc' w',
    Z.of_nat k + Z.of_nat fuel ≤ 2 ^ 63 →
    forEachPage ev get fuel (Z.of_nat k) fn acc w = Some ((r, acc'), w') →
    ∃ k' s',
      Enumerates get fn k (w_store w) acc k' r acc' s'
      ∧ (k < k' ≤ k + fuel)%nat
      ∧ w' = after w s' (w_runtime w)
               (map (λ i, ev (mkQueryUserCategoriesOptions (Z.of_nat i) 50))
                    (seq k (k' - k))).
Proof.
  induction fuel as [|fuel IH]; intros k fn acc w r acc' w' Hk; [done|].
  rewrite forEachPage_step; simpl.
  assert (Hone : (Datatypes.S k - k = 1)%nat) by lia.
  destruct (get _ _) as [[err|xs] s1] eqn:Eget; simpl.
  { intros [= <- <- <-]. exists (Datatypes.S k), s1. rewrite Hone.
    split; [by constructor | split; [lia | done]]. }
  destruct (range_visit fn xs acc) as [[err|] acc1] eqn:Evisit;
    apply range_visit_Visits in Evisit.
  { intros [= <- <- <-]. exists (Datatypes.S k), s1. rewrite Hone.
    split; [by eapply Enumerates_visitor_stops | split; [lia | done]]. }
  case_bool_decide as Hlen.
  { intros [= <- <- <-]. exists (Datatypes.S k), s1. rewrite Hone.
    split; [|split; [lia | done]].
    eapply Enumerates_last_page; eauto. unfold perPage in Hlen. lia. }
  destruct fuel as [|fuel']; [done|].
  rewrite int_incr_of_nat by lia.
  intros Hrec. apply IH in Hrec as (k' & s' & Henum & Hk' & ->); [|lia].
  exists k', s'. split; [|split; [lia|]].
  - eapply Enumerates_next_page; eauto. unfold perPage in Hlen. lia.
  - rewrite after_after. f_equal. simpl.
    replace (k' - k)%nat with (Datatypes.S (k' - Datatypes.S k)) by lia. done.
Qed.

(** ... and every enumeration the contract allows is what the loop does,
    given fuel for its pages. *)
Lemma Enumerates_forEachPage fn k s acc k' r acc' s' :
  Enumerates get fn k s acc k' r acc' s' →
  (k < k')%nat
  ∧ ∀ fuel w,
      w_store w = s →
      (k' - k ≤ fuel)%nat →
      Z.of_nat k' ≤ 2 ^ 63 →
      forEachPage ev get fuel (Z.of_nat k) fn acc w =
      Some ((r, acc'),
            after w s' (w_runtime w)
              (map (λ i, ev (mkQueryUserCategoriesOptions (Z.of_nat i) 50))
                   (seq k (k' - k)))).
Proof.
  induction 1 as [k s acc err s' Eget|k s acc xs s' err acc' Eget Hv
                 |k s acc xs s' acc' Eget Hv Hlen
                 |k s acc xs s' acc' k' r acc'' s'' Eget Hv Hlen _ [Hlt IH]];
    (split; [lia|]); intros fuel w Hs Hfuel Hk';
    (destruct fuel as [|fuel]; [lia|]); rewrite forEachPage_step; simpl;
    rewrite Hs; unfold perPage; rewrite Eget; simpl;
    try replace (Datatypes.S k - k)%nat with 1%nat by lia; try done.
  - apply range_visit_Visits in Hv. by rewrite Hv.
  - apply range_visit_Visits in Hv. rewrite Hv.
    by rewrite bool_decide_eq_true_2 by lia.
  - apply range_visit_Visits in Hv. rewrite Hv.
    rewrite bool_decide_eq_false_2 by lia.
    rewrite int_incr_of_nat by lia.
    erewrite (IH fuel); [|reflexivity|lia|lia].
    rewrite after_after. do 3 f_equal.
    replace (k' - k)%nat with (Datatypes.S (k' - Datatypes.S k)) by lia. done.
Qed.

End Paging.

Section PagingFacts.

Context {S R : Type} `{!Store S} `{!Runtime R}.

Implicit Types (w : World (S:=S) (R:=R)) (s : S).

Lemma ForEachUserCategory_from_forEachPage {A} fuel :
  ∀ page userID teamID (fn : Visitor Category A) acc w,
    ForEachUserCategory_from fuel page userID teamID fn acc w =
    forEachPage (CallGetUserCategories userID teamID)
                (storeGetUserCategories userID teamID) fuel page fn acc w.
Proof.
  induction fuel as [|fuel IH]; intros page userID teamID fn acc w; [done|].
  simpl. unfold bind, a_store_GetUserCategories, call.
  destruct (storeGetUserCategories _ _ _ _) as [[err|xs] s']; [done|].
  destruct (range_visit fn xs acc) as [[err|] acc']; [done|].
  case_bool_decide; [done|]. apply IH.
Qed.

Lemma ForEachUserCategoryBoard_from_forEachPage {A} fuel :
  ∀ page userID teamID (fn : Visitor CategoryBoards A) acc w,
    ForEachUserCategoryBoard_from fuel page userID teamID fn acc w =
    forEachPage (CallGetUserCategoryBoards userID teamID)
                (storeGetUserCategoryBoards userID teamID) fuel page fn acc w.
Proof.
  induction fuel as [|fuel IH]; intros page userID teamID fn acc w; [done|].
  simpl. unfold bind, a_store_GetUserCategoryBoards, call.
  destruct (storeGetUserCategoryBoards _ _ _ _) as [[err|xs] s']; [done|].
  destruct (range_visit fn xs acc) as [[err|] acc']; [done|].
  case_bool_decide; [done|]. apply IH.
Qed.

Lemma Forall_page_calls (P : Event → Prop) ev n :
  (∀ opts, P (ev opts)) → ∀ page, Forall P (page_calls ev page n).
Proof.
  intros HP. induction n as [|n IH]; intros page; simpl; constructor; auto.
Qed.

(** C9. [ForEachUserCategory] asks the store for pages 0, 1, 2, ... of fifty
    categories, in that order and nothing else, and shows the visitor each
    page's categories in order.  It stops at the first page on which the
    store fails, returning the store's error; or on which the visitor
    signals (done, or an error), at the item where it does, returning the
    visitor's error; or which holds fewer than fifty categories.  Conversely
    every enumeration of that shape is what the function does, given fuel
    for its pages.  (A Go [int] counts the pages: the statement is for runs
    of at most 2^63 of them.) *)
Theorem ForEachUserCategory_contract {A} fuel userID teamID
    (fn : Visitor Category A) acc w :
  Z.of_nat fuel ≤ 2 ^ 63 →
  let request (k : nat) :=
    CallGetUserCategories userID teamID (mkQueryUserCategoriesOptions (Z.of_nat k) 50) in
  (∀ r acc' w',
     ForEachUserCategory fuel userID teamID fn acc w = Some ((r, acc'), w') →
     ∃ n s',
       (1 ≤ n ≤ fuel)%nat
       ∧ Enumerates (storeGetUserCategories userID teamID) fn 0 (w_store w) acc n r acc' s'
       ∧ w' = after w s' (w_runtime w) (map request (seq 0 n)))
  ∧ (∀ n r acc' s',
       Enumerates (storeGetUserCategories userID teamID) fn 0 (w_store w) acc n r acc' s' →
       (n ≤ fuel)%nat →
       ForEachUserCategory fuel userID teamID fn acc w =
       Some ((r, acc'), after w s' (w_runtime w) (map request (seq 0 n)))).
Proof.
  intros Hfuel request. unfold ForEachUserCategory. split.
  - intros r acc' w'. rewrite ForEachUserCategory_from_forEachPage.
    intros Hrun.
    apply (forEachPage_Enumerates _ _ fuel 0%nat) in Hrun as (n & s' & Henum & Hn & ->);
      [|simpl; lia].
    exists n, s'. split; [lia|]. split; [done|].
    by rewrite Nat.sub_0_r.
  - intros n r acc' s' Henum Hn. rewrite ForEachUserCategory_from_forEachPage.
    destruct (Enumerates_forEachPage (R:=R) (CallGetUserCategories userID teamID)
                _ _ _ _ _ _ _ _ _ Henum) as [_ Hrun].
    assert (Hw := Hrun fuel w eq_refl ltac:(lia) ltac:(lia)).
    change (Z.of_nat 0) with 0 in Hw. rewrite Hw.
    by rewrite Nat.sub_0_r.
Qed.

End PagingFacts.

Lemma ForEachUserCategory_contract_witness :
  Z.of_nat 2 ≤ 2 ^ 63
  ∧ ForEachUserCategory 2 "u1" "t1" verify_fn ∅ (Mem.world Mem.large)
    = Some ((None, existing_ids (map cbCategory Mem.large)),
            after (Mem.world Mem.large) (w_store (Mem.world Mem.large)) 7000
              [CallGetUserCategories "u1" "t1" (mkQueryUserCategoriesOptions 0 50);
               CallGetUserCategories "u1" "t1" (mkQueryUserCategoriesOptions 1 50)])
  ∧ (∃ n s',
      (1 ≤ n ≤ 2)%nat
      ∧ Enumerates (storeGetUserCategories "u1" "t1") verify_fn 0
          (w_store (Mem.world Mem.large)) ∅ n None
          (existing_ids (map cbCategory Mem.large)) s')
  ∧ ForEachUserCategory 2 "u1" "t1" verify_fn ∅ (Mock.world Mock.flaky)
    = Some ((Some (ErrOther "connection lost"),
             existing_ids (map cbCategory (take 50 Mem.large))),
            after (Mock.world Mock.flaky) Mock.flaky 7000
              [CallGetUserCategories "u1" "t1" (mkQueryUserCategoriesOptions 0 50);
               CallGetUserCategories "u1" "t1" (mkQueryUserCategoriesOptions 1 50)])
  ∧ (∃ n s',
      (1 ≤ n ≤ 2)%nat
      ∧ Enumerates (storeGetUserCategories "u1" "t1") verify_fn 0 Mock.flaky ∅ n
          (Some (ErrOther "connection lost"))
          (existing_ids (map cbCategory (take 50 Mem.large))) s').
Proof.
  split; [done|].
  assert (Hrun : ForEachUserCategory 2 "u1" "t1" verify_fn ∅ (Mem.world Mem.large)
    = Some ((None, existing_ids (map cbCategory Mem.large)),
            after (Mem.world Mem.large) (w_store (Mem.world Mem.large)) 7000
              [CallGetUserCategories "u1" "t1" (mkQueryUserCategoriesOptions 0 50);
               CallGetUserCategories "u1" "t1" (mkQueryUserCategoriesOptions 1 50)]))
    by (vm_compute; reflexivity).
  assert (Hflaky : ForEachUserCategory 2 "u1" "t1" verify_fn ∅ (Mock.world Mock.flaky)
    = Some ((Some (ErrOther "connection lost"),
             existing_ids (map cbCategory (take 50 Mem.large))),
            after (Mock.world Mock.flaky) Mock.flaky 7000
              [CallGetUserCategories "u1" "t1" (mkQueryUserCategoriesOptions 0 50);
               CallGetUserCategories "u1" "t1" (mkQueryUserCategoriesOptions 1 50)]))
    by (vm_compute; reflexivity).
  split; [exact Hrun|]. split.
  - destruct (ForEachUserCategory_contract 2 "u1" "t1" verify_fn ∅ (Mem.world Mem.large))
      as [Hsound _]; [done|].
    destruct (Hsound _ _ _ Hrun) as (n & s' & Hn & Henum & _).
    by exists n, s'.
  - split; [exact Hflaky|].
    destruct (ForEachUserCategory_contract 2 "u1" "t1" verify_fn ∅ (Mock.world Mock.flaky))
      as [Hsound _]; [done|].
    destruct (Hsound _ _ _ Hflaky) as (n & s' & Hn & Henum & _).
    by exists n, s'.
Defined.

(** ** ReorderCategories *)

Section Reorder.

Context {S R : Type} `{!Store S} `{!Runtime R}.

Implicit Types (w : World (S:=S) (R:=R)) (s : S).
Implicit Types (userID teamID : string) (fuel n : nat).
Implicit Types (newCategoryOrder : list string) (categories : list Category).

(** The closure never signals: it collects the identifiers of all the
    categories it is shown. *)
Lemma verify_fn_collects categories :
  ∀ E, range_visit verify_fn categories E = (None, existing_ids categories ∪ E).
Proof.
  unfold existing_ids.
  induction categories as [|c categories IH]; intros E; simpl.
  - by rewrite union_empty_l_L.
  - rewrite IH. f_equal. rewrite (assoc_L (∪)). f_equal. apply (comm_L (∪)).
Qed.

Lemma range_found_None (E : gset string) userID teamID newCategoryOrder :
  range_found E userID teamID newCategoryOrder = None ↔
  ∀ id, id ∈ newCategoryOrder → id ∈ E.
Proof.
  induction newCategoryOrder as [|id rest IH]; simpl.
  - split; [|done]. intros _ id Hin. by apply elem_of_nil in Hin.
  - case_bool_decide as Hid.
    + rewrite IH. split.
      * intros Hrest id' Hin. apply elem_of_cons in Hin as [->|Hin]; auto.
      * intros Hall id' Hin. apply Hall, elem_of_cons. by right.
    + split; [done|]. intros Hall. destruct Hid. apply Hall, elem_of_cons. by left.
Qed.

(** What the validation answers once the store has listed the categories. *)
Lemma verify_after_listing fuel userID teamID newCategoryOrder w n categories s' :
  all_pages (storeGetUserCategories userID teamID) 0 (w_store w) n categories s' →
  (n ≤ fuel)%nat →
  verifyNewCategoriesMatchExisting fuel userID teamID newCategoryOrder w =
  Some (if bool_decide (length newCategoryOrder ≠ size (existing_ids categories))
        then Some (errLengthMismatch userID teamID (length newCategoryOrder)
                     (size (existing_ids categories)))
        else range_found (existing_ids categories) userID teamID newCategoryOrder,
        after w s' (w_runtime w) (page_calls (CallGetUserCategories userID teamID) 0 n)).
Proof.
  intros Hpages Hfuel.
  unfold verifyNewCategoriesMatchExisting, ForEachUserCategory, bind.
  rewrite ForEachUserCategory_from_forEachPage.
  erewrite forEachPage_all_pages;
    [|exact Hpages|reflexivity|apply verify_fn_collects|exact Hfuel].
  rewrite union_empty_r_L. by case_bool_decide.
Qed.

(** C2. When the store lists the scope's categories and the proposed order
    has another length than the number of distinct identifiers listed,
    [ReorderCategories] fails with the length-mismatch error, which carries
    the two lengths, the user and the team.  It has only read the listing:
    the store is not asked to reorder and no notification is started. *)
Theorem ReorderCategories_length_mismatch
    fuel userID teamID newCategoryOrder w n categories s' :
  all_pages (storeGetUserCategories userID teamID) 0 (w_store w) n categories s' →
  (n ≤ fuel)%nat →
  length newCategoryOrder ≠ size (existing_ids categories) →
  let err := Errorf
    "%w length new categories: %d, length existing categories: %d, userID: %s, teamID: %s"
    errCategoriesLengthMismatch
    [ArgInt (Z.of_nat (length newCategoryOrder));
     ArgInt (Z.of_nat (size (existing_ids categories)));
     ArgString userID; ArgString teamID] in
  ∃ w' evs,
    ReorderCategories fuel userID teamID newCategoryOrder w = Some (inl err, w')
    ∧ errors_Is err errCategoriesLengthMismatch = true
    ∧ w_trace w' = w_trace w ++ evs
    ∧ Forall (λ e, is_store_reorder e = false ∧ is_notification e = false
                   ∧ is_write e = false) evs.
Proof.
  intros Hpages Hfuel Hlen err.
  exists (after w s' (w_runtime w) (page_calls (CallGetUserCategories userID teamID) 0 n)),
         (page_calls (CallGetUserCategories userID teamID) 0 n).
  repeat split.
  - unfold ReorderCategories, bind.
    rewrite (verify_after_listing _ _ _ _ _ _ _ _ Hpages Hfuel).
    by rewrite bool_decide_eq_true_2.
  - by apply Forall_page_calls.
Qed.

(** C8. Once the store has listed the scope's categories, the validation
    accepts a proposed order exactly when it is as long as the number of
    distinct identifiers listed and names listed identifiers only.  So [a; a]
    is accepted against the set {a, b}.  And an accepted order, duplicates
    included, is the one the store is asked to commit. *)
Theorem verifyNewCategoriesMatchExisting_accepts
    fuel userID teamID newCategoryOrder w n categories s' :
  all_pages (storeGetUserCategories userID teamID) 0 (w_store w) n categories s' →
  (n ≤ fuel)%nat →
  ∃ verdict w1,
    verifyNewCategoriesMatchExisting fuel userID teamID newCategoryOrder w
      = Some (verdict, w1)
    ∧ (verdict = None ↔
         length newCategoryOrder = size (existing_ids categories)
         ∧ ∀ id, id ∈ newCategoryOrder → id ∈ existing_ids categories)
    ∧ (∀ a b, a ≠ b → existing_ids categories = {[a; b]} →
         newCategoryOrder = [a; a] → verdict = None)
    ∧ (verdict = None →
         ∃ r w2 evs,
           ReorderCategories fuel userID teamID newCategoryOrder w = Some (r, w2)
           ∧ w_trace w2 =
             w_trace w1 ++ CallReorderCategories userID teamID newCategoryOrder :: evs).
Proof.
  intros Hpages Hfuel.
  pose proof (verify_after_listing fuel userID teamID newCategoryOrder w n categories s'
                Hpages Hfuel) as Hrun.
  set (verdict := if bool_decide _ then _ else _) in Hrun.
  assert (Hiff : verdict = None ↔
                 length newCategoryOrder = size (existing_ids categories)
                 ∧ ∀ id, id ∈ newCategoryOrder → id ∈ existing_ids categories).
  { subst verdict. case_bool_decide as Hlen.
    - split; [done|]. intros [Heq _]. done.
    - rewrite range_found_None. tauto. }
  eexists verdict, _. split; [exact Hrun|]. split; [exact Hiff|]. split.
  - intros a b Hab HE ->. apply Hiff. rewrite HE. split.
    + rewrite size_union by (by apply disjoint_singleton_l, not_elem_of_singleton).
      by rewrite !size_singleton.
    + intros id Hin. apply elem_of_union_l, elem_of_singleton.
      apply elem_of_cons in Hin as [->|Hin]; [done|].
      by apply list_elem_of_singleton in Hin as ->.
  - intros Hnone. unfold ReorderCategories, bind. rewrite Hrun, Hnone.
    unfold a_store_ReorderCategories, call. simpl.
    destruct (storeReorderCategories _ _ _ _) as [[err|newOrder] s2].
    + eexists _, _, []. split; reflexivity.
    + eexists _, _, [_]. split; [reflexivity|]. simpl. by rewrite <- app_assoc.
Qed.

(** C6. When the proposed order is a permutation of the identifiers the
    store lists for the scope, the validation accepts it, and what
    [ReorderCategories] returns, and broadcasts, is the order the store
    returns from its reorder call, whatever the caller's list was.  (When
    that call fails, its error is returned and nothing is broadcast.) *)
Theorem ReorderCategories_permutation
    fuel userID teamID newCategoryOrder w n categories s' :
  all_pages (storeGetUserCategories userID teamID) 0 (w_store w) n categories s' →
  (n ≤ fuel)%nat →
  newCategoryOrder ≡ₚ elements (existing_ids categories) →
  let w1 := after w s' (w_runtime w)
              (page_calls (CallGetUserCategories userID teamID) 0 n) in
  verifyNewCategoriesMatchExisting fuel userID teamID newCategoryOrder w = Some (None, w1)
  ∧ (∀ newOrder s2,
       storeReorderCategories userID teamID newCategoryOrder s' = (inr newOrder, s2) →
       ReorderCategories fuel userID teamID newCategoryOrder w =
       Some (inr newOrder,
             after w1 s2 (w_runtime w)
               [CallReorderCategories userID teamID newCategoryOrder;
                Go (BroadcastCategoryReorder teamID userID newOrder)]))
  ∧ (∀ err s2,
       storeReorderCategories userID teamID newCategoryOrder s' = (inl err, s2) →
       ReorderCategories fuel userID teamID newCategoryOrder w =
       Some (inl err,
             after w1 s2 (w_runtime w)
               [CallReorderCategories userID teamID newCategoryOrder])).
Proof.
  intros Hpages Hfuel Hperm w1.
  assert (Hrun : verifyNewCategoriesMatchExisting fuel userID teamID newCategoryOrder w
                 = Some (None, w1)).
  { rewrite (verify_after_listing _ _ _ _ _ _ _ _ Hpages Hfuel).
    rewrite bool_decide_eq_false_2.
    - f_equal. f_equal. apply range_found_None. intros id Hin.
      rewrite Hperm in Hin. by apply elem_of_elements in Hin.
    - intros Hne. apply Hne. by rewrite Hperm. }
  split; [exact Hrun|].
  split; intros res s2 Ereorder; unfold ReorderCategories, bind at 1; rewrite Hrun;
    step_call Ereorder; by rewrite ?run_go, ?after_after.
Qed.

End Reorder.

Lemma ReorderCategories_length_mismatch_witness :
  all_pages (storeGetUserCategories "u1" "t1") 0 (w_store (Mem.world Mem.small)) 1
    [cbCategory Mem.default_row; cbCategory Mem.work_row] (w_store (Mem.world Mem.small))
  ∧ (1 ≤ 1)%nat
  ∧ length ["w"] ≠ size (existing_ids [cbCategory Mem.default_row; cbCategory Mem.work_row])
  ∧ ∃ w' evs,
      ReorderCategories 1 "u1" "t1" ["w"] (Mem.world Mem.small) =
      Some (inl (Errorf
        "%w length new categories: %d, length existing categories: %d, userID: %s, teamID: %s"
        errCategoriesLengthMismatch
        [ArgInt 1; ArgInt 2; ArgString "u1"; ArgString "t1"]), w')
      ∧ w_trace w' = evs
      ∧ Forall (λ e, is_store_reorder e = false ∧ is_notification e = false
                     ∧ is_write e = false) evs.
Proof.
  assert (Hpages : all_pages (storeGetUserCategories "u1" "t1") 0
            (w_store (Mem.world Mem.small)) 1
            [cbCategory Mem.default_row; cbCategory Mem.work_row]
            (w_store (Mem.world Mem.small)))
    by (apply all_pages_last; [reflexivity | done]).
  assert (Hlen : length ["w"] ≠
            size (existing_ids [cbCategory Mem.default_row; cbCategory Mem.work_row]))
    by (vm_compute; lia).
  split; [exact Hpages|]. split; [lia|]. split; [exact Hlen|].
  destruct (ReorderCategories_length_mismatch 1 "u1" "t1" ["w"] (Mem.world Mem.small)
              1 _ _ Hpages (le_n 1) Hlen) as (w' & evs & Hrun & _ & Htr & Hevs).
  exists w', evs. split; [exact Hrun|]. split; [exact Htr|exact Hevs].
Defined.

Lemma verifyNewCategoriesMatchExisting_accepts_witness :
  all_pages (storeGetUserCategories "u1" "t1") 0 (w_store (Mem.world Mem.small)) 1
    [cbCategory Mem.default_row; cbCategory Mem.work_row] (w_store (Mem.world Mem.small))
  ∧ (1 ≤ 1)%nat
  ∧ ∃ w1 r w2 evs,
      verifyNewCategoriesMatchExisting 1 "u1" "t1" ["w"; "w"] (Mem.world Mem.small)
        = Some (None, w1)
      ∧ ReorderCategories 1 "u1" "t1" ["w"; "w"] (Mem.world Mem.small) = Some (r, w2)
      ∧ w_trace w2 = w_trace w1 ++ CallReorderCategories "u1" "t1" ["w"; "w"] :: evs.
Proof.
  assert (Hpages : all_pages (storeGetUserCategories "u1" "t1") 0
            (w_store (Mem.world Mem.small)) 1
            [cbCategory Mem.default_row; cbCategory Mem.work_row]
            (w_store (Mem.world Mem.small)))
    by (apply all_pages_last; [reflexivity | done]).
  split; [exact Hpages|]. split; [lia|].
  destruct (verifyNewCategoriesMatchExisting_accepts 1 "u1" "t1" ["w"; "w"]
              (Mem.world Mem.small) 1 _ _ Hpages (le_n 1))
    as (verdict & w1 & Hrun & _ & Hdup & Hhand).
  assert (Hnone : verdict = None).
  { apply (Hdup "w" "d"); [done | | done]. vm_compute. reflexivity. }
  destruct (Hhand Hnone) as (r & w2 & evs & Hreorder & Htr).
  exists w1, r, w2, evs. rewrite <- Hnone. by repeat split.
Defined.

Lemma ReorderCategories_permutation_witness :
  all_pages (storeGetUserCategories "u1" "t1") 0 (w_store (Mock.world Mock.pinned)) 1
    [cbCategory Mem.default_row; cbCategory Mem.work_row] Mock.pinned
  ∧ (1 ≤ 1)%nat
  ∧ ["w"; "d"] ≡ₚ elements (existing_ids [cbCategory Mem.default_row; cbCategory Mem.work_row])
  ∧ storeReorderCategories "u1" "t1" ["w"; "d"] Mock.pinned = (inr ["d"; "w"], Mock.pinned)
  ∧ ReorderCategories 1 "u1" "t1" ["w"; "d"] (Mock.world Mock.pinned) =
    Some (inr ["d"; "w"],
          after (Mock.world Mock.pinned) Mock.pinned 7000
            [CallGetUserCategories "u1" "t1" (mkQueryUserCategoriesOptions 0 50);
             CallReorderCategories "u1" "t1" ["w"; "d"];
             Go (BroadcastCategoryReorder "t1" "u1" ["d"; "w"])]).
Proof.
  assert (Hpages : all_pages (storeGetUserCategories "u1" "t1") 0
            (w_store (Mock.world Mock.pinned)) 1
            [cbCategory Mem.default_row; cbCategory Mem.work_row] Mock.pinned)
    by (apply all_pages_last; [reflexivity | done]).
  assert (Hperm : ["w"; "d"] ≡ₚ
            elements (existing_ids [cbCategory Mem.default_row; cbCategory Mem.work_row])).
  { vm_compute. first [reflexivity | apply perm_swap]. }
  assert (Hstore : storeReorderCategories "u1" "t1" ["w"; "d"] Mock.pinned
                   = (inr ["d"; "w"], Mock.pinned)) by reflexivity.
  split; [exact Hpages|]. split; [lia|]. split; [exact Hperm|]. split; [exact Hstore|].
  destruct (ReorderCategories_permutation 1 "u1" "t1" ["w"; "d"]
              (Mock.world Mock.pinned) 1 _ _ Hpages (le_n 1) Hperm) as (_ & Hok & _).
  exact (Hok _ _ Hstore).
Defined.

(** ** DeleteCategory: the migration *)

Section Migration.

Context {S R : Type} `{!Store S} `{!Runtime R}.

Implicit Types (w : World (S:=S) (R:=R)) (s : S).
Implicit Types (userID teamID categoryID : string) (fuel n : nat).
Implicit Types (cbs : list CategoryBoards).

(** One call of the closure. *)
Lemma moveBoards_fn_eq sourceCategoryID cb (src : option CategoryBoards) (d : string) :
  moveBoards_fn sourceCategoryID cb (src, d) =
  let src' := if bool_decide (ID (cbCategory cb) = sourceCategoryID) then Some cb else src in
  let d' := if bool_decide (Name (cbCategory cb) = defaultCategoryBoards)
            then ID (cbCategory cb) else d in
  ((bool_decide (src' ≠ None) && bool_decide (d' ≠ ""), None), (src', d')).
Proof.
  unfold moveBoards_fn. simpl.
  by destruct (bool_decide (_ ≠ None) && bool_decide (_ ≠ "")).
Qed.

(** As long as the source category is not among the items, the closure does
    not signal and the pointer stays nil. *)
Lemma moveBoards_fn_no_source sourceCategoryID cbs :
  (∀ cb, cb ∈ cbs → ID (cbCategory cb) ≠ sourceCategoryID) →
  ∀ d, ∃ d',
    range_visit (moveBoards_fn sourceCategoryID) cbs (None, d) = (None, (None, d')).
Proof.
  induction cbs as [|cb cbs IH]; intros Hall d; cbn [range_visit]; [by exists d|].
  rewrite moveBoards_fn_eq. cbn zeta.
  rewrite (bool_decide_eq_false_2 (ID (cbCategory cb) = sourceCategoryID))
    by (apply Hall, elem_of_cons; by left).
  simpl. apply IH. intros cb' Hin. apply Hall, elem_of_cons. by right.
Qed.

(** As long as no item bears the default name, the closure does not signal
    and the default identifier stays empty; the pointer is set once the
    source category has been seen. *)
Lemma moveBoards_fn_no_default sourceCategoryID cbs :
  (∀ cb, cb ∈ cbs → Name (cbCategory cb) ≠ defaultCategoryBoards) →
  ∀ src, ∃ src',
    range_visit (moveBoards_fn sourceCategoryID) cbs (src, "") = (None, (src', ""))
    ∧ (is_Some src ∨ (∃ cb, cb ∈ cbs ∧ ID (cbCategory cb) = sourceCategoryID) →
       is_Some src').
Proof.
  induction cbs as [|cb cbs IH]; intros Hall src; cbn [range_visit].
  - exists src. split; [done|]. intros [Hsrc|(cb & Hin & _)]; [done|].
    by apply elem_of_nil in Hin.
  - rewrite moveBoards_fn_eq. cbn zeta.
    rewrite (bool_decide_eq_false_2 (Name (cbCategory cb) = defaultCategoryBoards))
      by (apply Hall, elem_of_cons; by left).
    rewrite (bool_decide_eq_false_2 ("" ≠ "")) by (intros Hne; by apply Hne).
    rewrite andb_false_r. simpl.
    destruct (IH (λ cb' Hin, Hall cb' (proj2 (elem_of_cons _ _ _) (or_intror Hin)))
                (if bool_decide (ID (cbCategory cb) = sourceCategoryID)
                 then Some cb else src)) as (src' & Hrun & Hsome).
    exists src'. split; [exact Hrun|].
    intros Hfound. apply Hsome. case_bool_decide as Hid; [left; by eexists|].
    destruct Hfound as [Hsrc|(cb' & Hin & Hid')]; [by left|].
    right. exists cb'. split; [|done].
    apply elem_of_cons in Hin as [->|Hin]; [done|exact Hin].
Qed.

(** The migration only lists category boards and reassigns boards. *)
Lemma moveBoardsToDefaultCategory_trace fuel userID teamID categoryID w r w2 :
  moveBoardsToDefaultCategory fuel userID teamID categoryID w = Some (r, w2) →
  ∃ evs, w_trace w2 = w_trace w ++ evs
         ∧ Forall (λ e, is_migration e = true ∧ is_store_delete e = false) evs.
Proof.
  unfold moveBoardsToDefaultCategory, ForEachUserCategoryBoard, bind.
  rewrite ForEachUserCategoryBoard_from_forEachPage.
  destruct (forEachPage _ _ _ _ _ _ _) as [[[err [src d]] w1]|] eqn:Escan; [|done].
  apply forEachPage_trace in Escan as (s' & n & -> & _).
  assert (Hreads : Forall (λ e, is_migration e = true ∧ is_store_delete e = false)
                     (page_calls (CallGetUserCategoryBoards userID teamID) 0 n))
    by (by apply Forall_page_calls).
  destruct err as [err|]; [intros [= <- <-]; eauto|].
  destruct src as [src|]; [|intros [= <- <-]; eauto].
  case_bool_decide; [intros [= <- <-]; eauto|].
  unfold AddUpdateUserCategoryBoard, a_store_AddUpdateUserCategoryBoard, call. simpl.
  destruct (storeAddUpdateUserCategoryBoard _ _ _ _ _) as [[err|] s2];
    intros [= <- <-]; simpl; rewrite <- app_assoc;
    (eexists; split; [done|]); apply Forall_app; split; auto.
Qed.

(** C3. For an active category that is not a system category, deleted by its
    owner in its team, the migration runs right after the read of the
    record, and it only lists category boards and reassigns boards.  When it
    fails, [DeleteCategory] returns its error from the state the migration
    left: the store is not asked to delete.  When it succeeds, the store's
    delete is the next call.  The migration fails with [errCategoryNotFound]
    when the source category is not among the category boards the store
    lists, and with another error, wrapping [errNoDefaultCategoryFound],
    when the source is among them but none bears the default name. *)
Theorem DeleteCategory_migration_first fuel categoryID userID teamID w existing s1 :
  storeGetCategory categoryID (w_store w) = (inr existing, s1) →
  DeleteAt existing = 0 →
  UserID existing = userID →
  TeamID existing = teamID →
  Type_ existing ≠ CategoryTypeSystem →
  let w1 := after w s1 (w_runtime w) [CallGetCategory categoryID] in
  let errNoDefault :=
    Errorf "moveBoardsToDefaultCategory: %w" errNoDefaultCategoryFound [] in
  (∀ r w2,
     moveBoardsToDefaultCategory fuel userID teamID categoryID w1 = Some (r, w2) →
     ∃ evs,
       w_trace w2 = w_trace w ++ CallGetCategory categoryID :: evs
       ∧ Forall (λ e, is_migration e = true ∧ is_store_delete e = false) evs
       ∧ match r with
         | Some err =>
             DeleteCategory fuel categoryID userID teamID w = Some (inl err, w2)
         | None =>
             ∃ res w3 evs',
               DeleteCategory fuel categoryID userID teamID w = Some (res, w3)
               ∧ w_trace w3 =
                 w_trace w2 ++ CallDeleteCategory categoryID userID teamID :: evs'
         end)
  ∧ (∀ n cbs s2,
       all_pages (storeGetUserCategoryBoards userID teamID) 0 s1 n cbs s2 →
       (n ≤ fuel)%nat →
       let w2 := after w1 s2 (w_runtime w)
                   (page_calls (CallGetUserCategoryBoards userID teamID) 0 n) in
       ((∀ cb, cb ∈ cbs → ID (cbCategory cb) ≠ categoryID) →
          DeleteCategory fuel categoryID userID teamID w
          = Some (inl errCategoryNotFound, w2))
       ∧ ((∃ cb, cb ∈ cbs ∧ ID (cbCategory cb) = categoryID) →
          (∀ cb, cb ∈ cbs → Name (cbCategory cb) ≠ defaultCategoryBoards) →
          DeleteCategory fuel categoryID userID teamID w
          = Some (inl errNoDefault, w2)))
  ∧ errors_Is errNoDefault errNoDefaultCategoryFound = true
  ∧ errors_Is errNoDefault errCategoryNotFound = false
  ∧ errors_Is errCategoryNotFound errNoDefaultCategoryFound = false.
Proof.
  intros Eget Hdel Hu Ht Hty w1 errNoDefault.
  assert (Hdelete : DeleteCategory fuel categoryID userID teamID w =
            match moveBoardsToDefaultCategory fuel userID teamID categoryID w1 with
            | None => None
            | Some (Some err, w2) => Some (inl err, w2)
            | Some (None, w2) =>
                (err <- a_store_DeleteCategory categoryID userID teamID ;;
                 match err with
                 | Some err => ret (inl err)
                 | None =>
                     r <- a_store_GetCategory categoryID ;;
                     match r with
                     | inl err => ret (inl err)
                     | inr deletedCategory =>
                         _ <- go (BroadcastCategoryChange deletedCategory) ;;
                         ret (inr deletedCategory)
                     end
                 end) w2
            end).
  { rewrite (DeleteCategory_read _ _ _ _ _ _ _ Eget). simpl.
    rewrite bool_decide_eq_false_2 by (intros ?; done).
    rewrite bool_decide_eq_false_2 by (intros ?; done).
    rewrite bool_decide_eq_false_2 by (intros ?; done).
    by rewrite bool_decide_eq_false_2. }
  split; [|split; [|done]].
  - intros r w2 Hmove. rewrite Hdelete, Hmove.
    apply moveBoardsToDefaultCategory_trace in Hmove as (evs & Htr & Hevs).
    exists evs. split; [|split; [exact Hevs|]].
    { rewrite Htr. unfold w1, after. simpl. by rewrite <- app_assoc. }
    destruct r as [err|]; [done|].
    unfold bind, a_store_DeleteCategory, a_store_GetCategory, call, go, ret.
    destruct (storeDeleteCategory _ _ _ _) as [[err|] s3]; simpl; [by eexists _, _, []|].
    destruct (storeGetCategory categoryID s3) as [[err|deleted] s4]; simpl.
    + eexists _, _, [_]. split; [done|]. simpl. by rewrite <- app_assoc.
    + eexists _, _, [_; _]. split; [done|]. simpl. by rewrite <- !app_assoc.
  - intros n cbs s2 Hpages Hfuel w2. rewrite Hdelete.
    unfold moveBoardsToDefaultCategory, ForEachUserCategoryBoard, bind.
    rewrite ForEachUserCategoryBoard_from_forEachPage. split.
    + intros Habsent.
      destruct (moveBoards_fn_no_source categoryID cbs Habsent "") as (d' & Hvisit).
      erewrite forEachPage_all_pages; [|exact Hpages|reflexivity|exact Hvisit|exact Hfuel].
      done.
    + intros Hpresent Hnodefault.
      destruct (moveBoards_fn_no_default categoryID cbs Hnodefault None)
        as (src' & Hvisit & Hsome).
      erewrite forEachPage_all_pages; [|exact Hpages|reflexivity|exact Hvisit|exact Hfuel].
      destruct (Hsome (or_intror Hpresent)) as [src ->]. done.
Qed.

End Migration.

Lemma DeleteCategory_migration_first_witness :
  storeGetCategory "w" (Mock.listing [Mem.default_row])
    = (inr (cbCategory Mem.work_row), Mock.listing [Mem.default_row])
  ∧ storeGetCategory "w" (Mock.listing [Mem.work_row])
    = (inr (cbCategory Mem.work_row), Mock.listing [Mem.work_row])
  ∧ DeleteAt (cbCategory Mem.work_row) = 0
  ∧ UserID (cbCategory Mem.work_row) = "u1"
  ∧ TeamID (cbCategory Mem.work_row) = "t1"
  ∧ Type_ (cbCategory Mem.work_row) ≠ CategoryTypeSystem
  ∧ DeleteCategory 1 "w" "u1" "t1" (Mock.world (Mock.listing [Mem.default_row]))
    = Some (inl errCategoryNotFound,
            after (Mock.world (Mock.listing [Mem.default_row]))
              (Mock.listing [Mem.default_row]) 7000
              [CallGetCategory "w";
               CallGetUserCategoryBoards "u1" "t1" (mkQueryUserCategoriesOptions 0 50)])
  ∧ DeleteCategory 1 "w" "u1" "t1" (Mock.world (Mock.listing [Mem.work_row]))
    = Some (inl (Errorf "moveBoardsToDefaultCategory: %w" errNoDefaultCategoryFound []),
            after (Mock.world (Mock.listing [Mem.work_row]))
              (Mock.listing [Mem.work_row]) 7000
              [CallGetCategory "w";
               CallGetUserCategoryBoards "u1" "t1" (mkQueryUserCategoriesOptions 0 50)]).
Proof.
  do 5 (split; [reflexivity|]). split; [done|]. split.
  - destruct (DeleteCategory_migration_first 1 "w" "u1" "t1"
                (Mock.world (Mock.listing [Mem.default_row]))
                (cbCategory Mem.work_row) (Mock.listing [Mem.default_row]))
      as (_ & Hcases & _); [reflexivity..|done|].
    destruct (Hcases 1%nat [Mem.default_row] (Mock.listing [Mem.default_row]))
      as [Habsent _]; [by apply all_pages_last|lia|].
    apply Habsent. intros cb Hin. by apply list_elem_of_singleton in Hin as ->.
  - destruct (DeleteCategory_migration_first 1 "w" "u1" "t1"
                (Mock.world (Mock.listing [Mem.work_row]))
                (cbCategory Mem.work_row) (Mock.listing [Mem.work_row]))
      as (_ & Hcases & _); [reflexivity..|done|].
    destruct (Hcases 1%nat [Mem.work_row] (Mock.listing [Mem.work_row]))
      as [_ Hnodefault]; [by apply all_pages_last|lia|].
    apply Hnodefault.
    + exists Mem.work_row. split; [apply list_elem_of_singleton|]; reflexivity.
    + intros cb Hin. by apply list_elem_of_singleton in Hin as ->.
Defined.

(** * Further properties of the lifecycle operations *)

(** Membership in an explicit list of events, case by case. *)
Ltac split_elem He :=
  repeat (apply elem_of_cons in He as [He|He]; [simplify_eq|]);
  try (by apply elem_of_nil in He).

(** ** CreateCategory *)

Section Create.

Context {S R : Type} `{!Store S} `{!Runtime R}.

Implicit Types (w : World (S:=S) (R:=R)) (s : S).

(** X1. Whatever the store answers, [CreateCategory] writes at most the
    hydrated category, and only when it is valid; it starts a notification
    only when it succeeds, for the record it returns; and a successful call
    has done exactly: create, read back, broadcast what was read back.  The
    record returned and broadcast is the one the store answered to the read
    back, in the state the create left; and whenever the input is valid, the
    create succeeds and the read back answers a record, the call returns
    that record. *)
Theorem CreateCategory_trace category w hydrated rt1 :
  Hydrate category (w_runtime w) = (hydrated, rt1) →
  ∃ r w' evs,
    CreateCategory category w = Some (r, w')
    ∧ w_trace w' = w_trace w ++ evs
    ∧ (∀ e, e ∈ evs → is_write e = true →
         e = CallCreateCategory hydrated ∧ IsValid hydrated = None)
    ∧ (∀ n, Go n ∈ evs →
         ∃ created, r = inr created ∧ n = BroadcastCategoryChange created)
    ∧ (∀ created, r = inr created →
         evs = [CallCreateCategory hydrated; CallGetCategory (ID hydrated);
                Go (BroadcastCategoryChange created)])
    ∧ (∀ created, r = inr created →
         ∃ s1 s2,
           storeCreateCategory hydrated (w_store w) = (None, s1)
           ∧ storeGetCategory (ID hydrated) s1 = (inr created, s2)
           ∧ w_store w' = s2)
    ∧ (∀ s1 created s2,
         IsValid hydrated = None →
         storeCreateCategory hydrated (w_store w) = (None, s1) →
         storeGetCategory (ID hydrated) s1 = (inr created, s2) →
         r = inr created ∧ w_store w' = s2).
Proof.
  intros Ehyd. unfold CreateCategory. step_sys Ehyd.
  destruct (IsValid hydrated) as [err|] eqn:Ev.
  { eexists _, _, []. split; [done|]. simpl. rewrite app_nil_r.
    split_and!; try done; intros ? He; by apply elem_of_nil in He. }
  destruct (storeCreateCategory hydrated (w_store w)) as [err s1] eqn:Ecreate.
  step_call Ecreate. destruct err as [err|].
  { eexists _, _, [_]. split; [done|]. split_and!; try done.
    - intros e He _. by split_elem He.
    - intros n He. split_elem He. }
  destruct (storeGetCategory (ID hydrated) s1) as [r s2] eqn:Eget.
  step_call Eget. destruct r as [err|created].
  { eexists _, _, [_; _]. split; [done|]. simpl. rewrite <- app_assoc.
    split_and!; try done.
    - intros e He Hw. by split_elem He.
    - intros n He. split_elem He.
    - intros s1' created s2' _ [= <-] Hget. congruence. }
  rewrite run_go.
  eexists _, _, [_; _; _]. split; [done|]. simpl. rewrite <- !app_assoc.
  split_and!; [done| | | | |].
  - intros e He Hw. by split_elem He.
  - intros n He. split_elem He. by eexists.
  - by intros created' [= <-].
  - intros created' [= <-]. by exists s1, s2.
  - intros s1' created' s2' _ [= <-] Hget.
    rewrite Eget in Hget. by injection Hget as <- <-.
Qed.

(** X2. When the store has created the category and then fails to read it
    back, [CreateCategory] returns that error: the category has been
    written, and no notification is started. *)
Theorem CreateCategory_reread_fails category w hydrated rt1 s1 err s2 :
  Hydrate category (w_runtime w) = (hydrated, rt1) →
  IsValid hydrated = None →
  storeCreateCategory hydrated (w_store w) = (None, s1) →
  storeGetCategory (ID hydrated) s1 = (inl err, s2) →
  CreateCategory category w =
  Some (inl err,
        mkWorld s2 rt1
          (w_trace w ++ [CallCreateCategory hydrated; CallGetCategory (ID hydrated)])).
Proof.
  intros Ehyd Ev Ecreate Eget. unfold CreateCategory.
  step_sys Ehyd. rewrite Ev. step_call Ecreate. step_call Eget.
  unfold ret, after. simpl. by rewrite <- app_assoc.
Qed.

End Create.

Lemma CreateCategory_trace_witness :
  Hydrate Mem.new_home (w_runtime (Mem.world Mem.small)) = (Mem.new_home, 7000)
  ∧ ∃ w' s1 s2,
      CreateCategory Mem.new_home (Mem.world Mem.small) = Some (inr Mem.new_home, w')
      ∧ w_trace w' =
        [CallCreateCategory Mem.new_home; CallGetCategory "h";
         Go (BroadcastCategoryChange Mem.new_home)]
      ∧ storeCreateCategory Mem.new_home (w_store (Mem.world Mem.small)) = (None, s1)
      ∧ storeGetCategory "h" s1 = (inr Mem.new_home, s2)
      ∧ w_store w' = s2.
Proof.
  split; [reflexivity|].
  destruct (CreateCategory_trace Mem.new_home (Mem.world Mem.small) Mem.new_home 7000)
    as (r & w' & evs & Hrun & Htr & _ & _ & Hok & Htie & Hmade); [reflexivity|].
  destruct (Hmade (Mem.after_create) Mem.new_home (Mem.after_create))
    as [Hr Hst]; [reflexivity..|].
  subst r. exists w', Mem.after_create, Mem.after_create.
  split_and!; [exact Hrun| |reflexivity|reflexivity|exact Hst].
  rewrite Htr. by rewrite (Hok _ eq_refl).
Defined.

Lemma CreateCategory_reread_fails_witness :
  Hydrate Mem.new_home (w_runtime (Mock.world Mock.unreadable)) = (Mem.new_home, 7000)
  ∧ IsValid Mem.new_home = None
  ∧ storeCreateCategory Mem.new_home Mock.unreadable = (None, Mock.unreadable)
  ∧ storeGetCategory "h" Mock.unreadable = (inl (ErrOther "connection lost"), Mock.unreadable)
  ∧ CreateCategory Mem.new_home (Mock.world Mock.unreadable) =
    Some (inl (ErrOther "connection lost"),
          mkWorld Mock.unreadable 7000
            [CallCreateCategory Mem.new_home; CallGetCategory "h"]).
Proof.
  do 4 (split; [reflexivity|]).
  apply (CreateCategory_reread_fails Mem.new_home (Mock.world Mock.unreadable)
           Mem.new_home 7000 Mock.unreadable (ErrOther "connection lost") Mock.unreadable);
    reflexivity.
Defined.

(** ** UpdateCategory *)

Section UpdateMore.

Context {S R : Type} `{!Store S} `{!Runtime R}.

Implicit Types (w : World (S:=S) (R:=R)) (s : S).

(** X3. Updating a category that the store holds as soft-deleted fails with
    [ErrCategoryDeleted] after the read, whatever its type: the override
    that zeroes [DeleteAt] is not reached, so an update does not revive a
    deleted system category. *)
Theorem UpdateCategory_deleted category w hydrated rt1 existing s1 :
  Hydrate category (w_runtime w) = (hydrated, rt1) →
  IsValid hydrated = None →
  storeGetCategory (ID hydrated) (w_store w) = (inr existing, s1) →
  DeleteAt existing ≠ 0 →
  UpdateCategory category w =
  Some (inl ErrCategoryDeleted,
        mkWorld s1 rt1 (w_trace w ++ [CallGetCategory (ID hydrated)])).
Proof.
  intros Ehyd Ev Eget Hdel. unfold UpdateCategory.
  step_sys Ehyd. rewrite Ev. step_call Eget.
  by rewrite bool_decide_eq_true_2.
Qed.

(** X4. On an active category, an input whose user or whose team differs
    from the stored one is refused with [ErrCategoryPermissionDenied], the
    same error in both cases, after the read and without a write. *)
Theorem UpdateCategory_mismatch category w hydrated rt1 existing s1 :
  Hydrate category (w_runtime w) = (hydrated, rt1) →
  IsValid hydrated = None →
  storeGetCategory (ID hydrated) (w_store w) = (inr existing, s1) →
  DeleteAt existing = 0 →
  UserID existing ≠ UserID hydrated ∨ TeamID existing ≠ TeamID hydrated →
  UpdateCategory category w =
  Some (inl ErrCategoryPermissionDenied,
        mkWorld s1 rt1 (w_trace w ++ [CallGetCategory (ID hydrated)])).
Proof.
  intros Ehyd Ev Eget Hdel Hne. unfold UpdateCategory.
  step_sys Ehyd. rewrite Ev. step_call Eget.
  rewrite bool_decide_eq_false_2 by (intros ?; done).
  case_bool_decide as Hu; [done|].
  case_bool_decide as Ht; [done|].
  destruct Hne as [Hne|Hne]; by destruct Hne.
Qed.

(** X5. For a category whose stored type is not system, the record
    [UpdateCategory] writes is the hydrated input with two fields replaced:
    the type, by the stored one, and [UpdateAt], by the clock.  The name and
    [DeleteAt] the caller sent are written as they are, so an update can
    mark a custom category deleted, without any migration of its boards. *)
Theorem UpdateCategory_custom_written category w hydrated rt1 existing s1 now rt2 :
  Hydrate category (w_runtime w) = (hydrated, rt1) →
  IsValid hydrated = None →
  storeGetCategory (ID hydrated) (w_store w) = (inr existing, s1) →
  DeleteAt existing = 0 →
  UserID existing = UserID hydrated →
  TeamID existing = TeamID hydrated →
  Type_ existing ≠ CategoryTypeSystem →
  GetMillis rt1 = (now, rt2) →
  let written :=
    mkCategory (ID hydrated) (Name hydrated) (UserID hydrated) (TeamID hydrated)
               (CreateAt hydrated) now (DeleteAt hydrated) (SortOrder hydrated)
               (Type_ existing) in
  IsValid written = None →
  ∃ r w' tail,
    UpdateCategory category w = Some (r, w')
    ∧ w_trace w' =
      w_trace w ++ CallGetCategory (ID hydrated) :: CallUpdateCategory written :: tail
    ∧ Forall (λ e, is_write e = false ∧ is_migration e = false) tail.
Proof.
  intros Ehyd Ev Eget Hdel Hu Ht Hty Enow written Ev2. unfold UpdateCategory.
  step_sys Ehyd. rewrite Ev. step_call Eget.
  rewrite bool_decide_eq_false_2 by (intros ?; done).
  rewrite bool_decide_eq_false_2 by (intros ?; done).
  rewrite bool_decide_eq_false_2 by (intros ?; done).
  rewrite bool_decide_eq_false_2 by done.
  step_sys Enow.
  change (set_UpdateAt now (set_Type (Type_ existing) hydrated)) with written.
  rewrite Ev2.
  destruct (storeUpdateCategory written s1) as [err s2] eqn:Eupd.
  step_call Eupd. destruct err as [err|].
  { eexists _, _, []. split; [done|]. simpl. by rewrite <- app_assoc. }
  destruct (storeGetCategory (ID hydrated) s2) as [r s3] eqn:Eget2.
  step_call Eget2. destruct r as [err|updated].
  { eexists _, _, [_]. split; [done|]. simpl. rewrite <- !app_assoc.
    split; [done|]. by repeat constructor. }
  rewrite run_go. eexists _, _, [_; _]. split; [done|]. simpl.
  rewrite <- !app_assoc. split; [done|]. by repeat constructor.
Qed.

(** The shape of every run of [UpdateCategory]. *)
Lemma UpdateCategory_trace_aux category w hydrated rt1 :
  Hydrate category (w_runtime w) = (hydrated, rt1) →
  ∃ r w' evs,
    UpdateCategory category w = Some (r, w')
    ∧ w_trace w' = w_trace w ++ evs
    ∧ (∀ e, e ∈ evs → is_write e = true →
         ∃ written, e = CallUpdateCategory written
           ∧ ID written = ID hydrated
           ∧ UserID written = UserID hydrated
           ∧ TeamID written = TeamID hydrated)
    ∧ (∀ n, Go n ∈ evs →
         ∃ updated, r = inr updated ∧ n = BroadcastCategoryChange updated)
    ∧ (∀ updated, r = inr updated →
         ∃ written,
           evs = [CallGetCategory (ID hydrated); CallUpdateCategory written;
                  CallGetCategory (ID hydrated);
                  Go (BroadcastCategoryChange updated)]).
Proof.
  intros Ehyd. unfold UpdateCategory. step_sys Ehyd.
  destruct (IsValid hydrated) as [err|] eqn:Ev.
  { eexists _, _, []. split; [done|]. simpl. rewrite app_nil_r.
    split_and!; try done; intros ? He; by apply elem_of_nil in He. }
  destruct (storeGetCategory (ID hydrated) (w_store w)) as [r s1] eqn:Eget.
  step_call Eget.
  assert (Hread : ∀ err : error,
    ∃ (r : error + Category) w' evs,
      Some (inl err, after (mkWorld (w_store w) rt1 (w_trace w)) s1 rt1
                       [CallGetCategory (ID hydrated)]) = Some (r, w')
      ∧ w_trace w' = w_trace w ++ evs
      ∧ (∀ e, e ∈ evs → is_write e = true →
           ∃ written, e = CallUpdateCategory written
             ∧ ID written = ID hydrated
             ∧ UserID written = UserID hydrated
             ∧ TeamID written = TeamID hydrated)
      ∧ (∀ n, Go n ∈ evs →
           ∃ updated, r = inr updated ∧ n = BroadcastCategoryChange updated)
      ∧ (∀ updated, r = inr updated →
           ∃ written,
             evs = [CallGetCategory (ID hydrated); CallUpdateCategory written;
                    CallGetCategory (ID hydrated);
                    Go (BroadcastCategoryChange updated)])).
  { intros err. eexists _, _, [_]. split; [done|]. split_and!; try done.
    - intros e He Hw. by split_elem He.
    - intros n He. split_elem He. }
  destruct r as [err|existing]; [apply Hread|].
  case_bool_decide; [apply Hread|].
  case_bool_decide; [apply Hread|].
  case_bool_decide; [apply Hread|].
  set (c0 := if bool_decide (Type_ existing = CategoryTypeSystem) then _ else _).
  assert (Hid : ID c0 = ID hydrated ∧ UserID c0 = UserID hydrated
                ∧ TeamID c0 = TeamID hydrated).
  { subst c0. by case_bool_decide. }
  clearbody c0.
  destruct (GetMillis rt1) as [now rt2] eqn:Enow. step_sys Enow.
  set (written := set_UpdateAt now c0).
  destruct (IsValid written) as [err|] eqn:Ev2.
  { eexists _, _, [_]. split; [done|]. split_and!; try done.
    - intros e He Hw. by split_elem He.
    - intros n He. split_elem He. }
  destruct (storeUpdateCategory written s1) as [err s2] eqn:Eupd.
  step_call Eupd. destruct err as [err|].
  { eexists _, _, [_; _]. split; [done|]. simpl. rewrite <- app_assoc.
    split_and!; try done.
    - intros e He Hw. split_elem He. by exists written.
    - intros n He. split_elem He. }
  destruct Hid as (Hid & Hus & Hte). rewrite Hid.
  destruct (storeGetCategory (ID hydrated) s2) as [r s3] eqn:Eget2.
  step_call Eget2. destruct r as [err|updated].
  { eexists _, _, [_; _; _]. split; [done|]. simpl. rewrite <- !app_assoc.
    split_and!; try done.
    - intros e He Hw. split_elem He. by exists written.
    - intros n He. split_elem He. }
  rewrite run_go.
  eexists _, _, [_; _; _; _]. split; [done|]. simpl. rewrite <- !app_assoc.
  split_and!; [done| | |].
  - intros e He Hw. split_elem He. by exists written.
  - intros n He. split_elem He. by eexists.
  - intros updated' [= <-]. by exists written.
Qed.

(** A successful run of [UpdateCategory], read backwards: the record
    returned is what the store answered to the read back. *)
Lemma UpdateCategory_inr_inv category w hydrated rt1 updated w' :
  Hydrate category (w_runtime w) = (hydrated, rt1) →
  UpdateCategory category w = Some (inr updated, w') →
  ∃ existing s1 written s2 s3,
    storeGetCategory (ID hydrated) (w_store w) = (inr existing, s1)
    ∧ storeUpdateCategory written s1 = (None, s2)
    ∧ storeGetCategory (ID hydrated) s2 = (inr updated, s3)
    ∧ w_store w' = s3
    ∧ w_trace w' =
      w_trace w ++ [CallGetCategory (ID hydrated); CallUpdateCategory written;
                    CallGetCategory (ID hydrated);
                    Go (BroadcastCategoryChange updated)].
Proof.
  intros Ehyd. unfold UpdateCategory. step_sys Ehyd.
  destruct (IsValid hydrated) as [err|] eqn:Ev; [done|].
  destruct (storeGetCategory (ID hydrated) (w_store w)) as [r s1] eqn:Eget.
  step_call Eget.
  destruct r as [err|existing]; [done|].
  case_bool_decide; [done|].
  case_bool_decide; [done|].
  case_bool_decide; [done|].
  set (c0 := if bool_decide (Type_ existing = CategoryTypeSystem) then _ else _).
  assert (Hid : ID c0 = ID hydrated) by (subst c0; by case_bool_decide).
  clearbody c0.
  destruct (GetMillis rt1) as [now rt2] eqn:Enow. step_sys Enow.
  set (written := set_UpdateAt now c0).
  destruct (IsValid written) as [err|] eqn:Ev2; [done|].
  destruct (storeUpdateCategory written s1) as [err s2] eqn:Eupd.
  step_call Eupd. destruct err as [err|]; [done|].
  rewrite Hid.
  destruct (storeGetCategory (ID hydrated) s2) as [r s3] eqn:Eget2.
  step_call Eget2. destruct r as [err|updated']; [done|].
  rewrite run_go. intros [= <- <-].
  exists existing, s1, written, s2, s3. split_and!; try done.
  simpl. by rewrite <- !app_assoc.
Qed.

(** The run of [UpdateCategory] when every step succeeds. *)
Lemma UpdateCategory_success_run category w hydrated rt1 existing s1 s2 updated s3 :
  Hydrate category (w_runtime w) = (hydrated, rt1) →
  IsValid hydrated = None →
  storeGetCategory (ID hydrated) (w_store w) = (inr existing, s1) →
  DeleteAt existing = 0 →
  UserID existing = UserID hydrated →
  TeamID existing = TeamID hydrated →
  let system := bool_decide (Type_ existing = CategoryTypeSystem) in
  let written :=
    mkCategory (ID hydrated)
               (if system then Name existing else Name hydrated)
               (UserID hydrated) (TeamID hydrated) (CreateAt hydrated)
               (GetMillis rt1).1
               (if system then 0 else DeleteAt hydrated)
               (SortOrder hydrated)
               (Type_ existing) in
  IsValid written = None →
  storeUpdateCategory written s1 = (None, s2) →
  storeGetCategory (ID hydrated) s2 = (inr updated, s3) →
  UpdateCategory category w =
  Some (inr updated,
        mkWorld s3 (GetMillis rt1).2
          (w_trace w ++ [CallGetCategory (ID hydrated); CallUpdateCategory written;
                         CallGetCategory (ID hydrated);
                         Go (BroadcastCategoryChange updated)])).
Proof.
  intros Ehyd Ev Eget Hdel Hu Ht system written Ev2 Eupd Eget2.
  unfold UpdateCategory. step_sys Ehyd. rewrite Ev. step_call Eget.
  rewrite bool_decide_eq_false_2 by (intros ?; done).
  rewrite bool_decide_eq_false_2 by (intros ?; done).
  rewrite bool_decide_eq_false_2 by (intros ?; done).
  pose proof (surjective_pairing (GetMillis rt1)) as Enow.
  set (c0 := if bool_decide (Type_ existing = CategoryTypeSystem) then _ else _).
  assert (Heq : set_UpdateAt (GetMillis rt1).1 c0 = written).
  { subst c0 written system. by case_bool_decide. }
  assert (Hid : ID c0 = ID hydrated) by (subst c0; by case_bool_decide).
  clearbody c0.
  step_sys Enow. rewrite Heq, Ev2. step_call Eupd.
  rewrite Hid. step_call Eget2. rewrite run_go.
  unfold ret, after. simpl. by rewrite <- !app_assoc.
Qed.

(** X6. Whatever the store answers, every write of [UpdateCategory] is an
    update of a record with the identifier, the user and the team of the
    hydrated input; a notification is started only when the call succeeds,
    for the record it returns; and a successful call has done exactly: read,
    update, read back, broadcast what was read back.  The record returned
    and broadcast is the one the store answered to the read back, in the
    state the update left; and whenever the checks pass, the overridden
    record is valid, the update succeeds and the read back answers a record,
    the call returns that record. *)
Theorem UpdateCategory_trace category w hydrated rt1 :
  Hydrate category (w_runtime w) = (hydrated, rt1) →
  ∃ r w' evs,
    UpdateCategory category w = Some (r, w')
    ∧ w_trace w' = w_trace w ++ evs
    ∧ (∀ e, e ∈ evs → is_write e = true →
         ∃ written, e = CallUpdateCategory written
           ∧ ID written = ID hydrated
           ∧ UserID written = UserID hydrated
           ∧ TeamID written = TeamID hydrated)
    ∧ (∀ n, Go n ∈ evs →
         ∃ updated, r = inr updated ∧ n = BroadcastCategoryChange updated)
    ∧ (∀ updated, r = inr updated →
         ∃ written,
           evs = [CallGetCategory (ID hydrated); CallUpdateCategory written;
                  CallGetCategory (ID hydrated);
                  Go (BroadcastCategoryChange updated)])
    ∧ (∀ updated, r = inr updated →
         ∃ existing s1 written s2 s3,
           storeGetCategory (ID hydrated) (w_store w) = (inr existing, s1)
           ∧ storeUpdateCategory written s1 = (None, s2)
           ∧ storeGetCategory (ID hydrated) s2 = (inr updated, s3)
           ∧ w_store w' = s3
           ∧ evs = [CallGetCategory (ID hydrated); CallUpdateCategory written;
                    CallGetCategory (ID hydrated);
                    Go (BroadcastCategoryChange updated)])
    ∧ (∀ existing s1 s2 updated s3,
         IsValid hydrated = None →
         storeGetCategory (ID hydrated) (w_store w) = (inr existing, s1) →
         DeleteAt existing = 0 →
         UserID existing = UserID hydrated →
         TeamID existing = TeamID hydrated →
         let system := bool_decide (Type_ existing = CategoryTypeSystem) in
         let written :=
           mkCategory (ID hydrated)
                      (if system then Name existing else Name hydrated)
                      (UserID hydrated) (TeamID hydrated) (CreateAt hydrated)
                      (GetMillis rt1).1
                      (if system then 0 else DeleteAt hydrated)
                      (SortOrder hydrated)
                      (Type_ existing) in
         IsValid written = None →
         storeUpdateCategory written s1 = (None, s2) →
         storeGetCategory (ID hydrated) s2 = (inr updated, s3) →
         r = inr updated
         ∧ w_store w' = s3
         ∧ evs = [CallGetCategory (ID hydrated); CallUpdateCategory written;
                  CallGetCategory (ID hydrated);
                  Go (BroadcastCategoryChange updated)]).
Proof.
  intros Ehyd.
  destruct (UpdateCategory_trace_aux category w hydrated rt1 Ehyd)
    as (r & w' & evs & Hrun & Htr & Hw & Hgo & Hok).
  exists r, w', evs. split_and!; [done..| |].
  - intros updated ->.
    destruct (UpdateCategory_inr_inv _ _ _ _ _ _ Ehyd Hrun)
      as (existing & s1 & written & s2 & s3 & Eget & Eupd & Eget2 & Hst & Htr').
    exists existing, s1, written, s2, s3. split_and!; try done.
    rewrite Htr in Htr'. by apply app_inv_head in Htr'.
  - intros existing s1 s2 updated s3 Ev Eget Hdel Hu Ht system written Ev2 Eupd Eget2.
    rewrite (UpdateCategory_success_run _ _ _ _ _ _ _ _ _
               Ehyd Ev Eget Hdel Hu Ht Ev2 Eupd Eget2) in Hrun.
    injection Hrun as <- <-. split_and!; [done|done|].
    simpl in Htr. by apply app_inv_head in Htr.
Qed.

End UpdateMore.

Lemma UpdateCategory_deleted_witness :
  Hydrate Mem.trashed_work (w_runtime Mem.after_delete) = (Mem.trashed_work, 7000)
  ∧ IsValid Mem.trashed_work = None
  ∧ storeGetCategory "w" (w_store Mem.after_delete)
    = (inr Mem.deleted_work, w_store Mem.after_delete)
  ∧ DeleteAt Mem.deleted_work ≠ 0
  ∧ UpdateCategory Mem.trashed_work Mem.after_delete =
    Some (inl ErrCategoryDeleted,
          mkWorld (w_store Mem.after_delete) 7000
            (w_trace Mem.after_delete ++ [CallGetCategory "w"])).
Proof.
  do 3 (split; [reflexivity|]). split; [done|].
  apply (UpdateCategory_deleted Mem.trashed_work Mem.after_delete Mem.trashed_work
           7000 Mem.deleted_work (w_store Mem.after_delete));
    [reflexivity | reflexivity | reflexivity | done].
Defined.

Lemma UpdateCategory_mismatch_witness :
  Hydrate Mem.moved_work (w_runtime (Mem.world Mem.small)) = (Mem.moved_work, 7000)
  ∧ IsValid Mem.moved_work = None
  ∧ storeGetCategory "w" (w_store (Mem.world Mem.small))
    = (inr (cbCategory Mem.work_row), w_store (Mem.world Mem.small))
  ∧ DeleteAt (cbCategory Mem.work_row) = 0
  ∧ (UserID (cbCategory Mem.work_row) ≠ UserID Mem.moved_work
     ∨ TeamID (cbCategory Mem.work_row) ≠ TeamID Mem.moved_work)
  ∧ UpdateCategory Mem.moved_work (Mem.world Mem.small) =
    Some (inl ErrCategoryPermissionDenied,
          mkWorld (w_store (Mem.world Mem.small)) 7000 [CallGetCategory "w"]).
Proof.
  do 4 (split; [reflexivity|]). split; [by right|].
  apply (UpdateCategory_mismatch Mem.moved_work (Mem.world Mem.small) Mem.moved_work 7000
           (cbCategory Mem.work_row) (w_store (Mem.world Mem.small)));
    [reflexivity | reflexivity | reflexivity | reflexivity | by right].
Defined.

Lemma UpdateCategory_custom_written_witness :
  Hydrate Mem.trashed_work (w_runtime (Mem.world Mem.small)) = (Mem.trashed_work, 7000)
  ∧ IsValid Mem.trashed_work = None
  ∧ storeGetCategory "w" (w_store (Mem.world Mem.small))
    = (inr (cbCategory Mem.work_row), w_store (Mem.world Mem.small))
  ∧ DeleteAt (cbCategory Mem.work_row) = 0
  ∧ UserID (cbCategory Mem.work_row) = UserID Mem.trashed_work
  ∧ TeamID (cbCategory Mem.work_row) = TeamID Mem.trashed_work
  ∧ Type_ (cbCategory Mem.work_row) ≠ CategoryTypeSystem
  ∧ GetMillis 7000 = (7000, 7001)
  ∧ IsValid Mem.written_work = None
  ∧ ∃ r w' tail,
      UpdateCategory Mem.trashed_work (Mem.world Mem.small) = Some (r, w')
      ∧ w_trace w' = CallGetCategory "w" :: CallUpdateCategory Mem.written_work :: tail.
Proof.
  do 6 (split; [reflexivity|]). split; [done|]. do 2 (split; [reflexivity|]).
  destruct (UpdateCategory_custom_written Mem.trashed_work (Mem.world Mem.small)
              Mem.trashed_work 7000 (cbCategory Mem.work_row)
              (w_store (Mem.world Mem.small)) 7000 7001)
    as (r & w' & tail & Hrun & Htr & _);
    [reflexivity | reflexivity | reflexivity | reflexivity | reflexivity | reflexivity
    | done | reflexivity | reflexivity |].
  by exists r, w', tail.
Defined.

Lemma UpdateCategory_trace_witness :
  Hydrate Mem.renamed_default (w_runtime (Mem.world Mem.small))
    = (Mem.hydrated_default, 7000)
  ∧ storeUpdateCategory Mem.written_default (w_store (Mem.world Mem.small))
    = (None, Mem.after_update)
  ∧ storeGetCategory "d" Mem.after_update = (inr Mem.written_default, Mem.after_update)
  ∧ ∃ w',
      UpdateCategory Mem.renamed_default (Mem.world Mem.small)
        = Some (inr Mem.written_default, w')
      ∧ w_store w' = Mem.after_update
      ∧ w_trace w' =
        [CallGetCategory "d"; CallUpdateCategory Mem.written_default;
         CallGetCategory "d"; Go (BroadcastCategoryChange Mem.written_default)].
Proof.
  do 3 (split; [reflexivity|]).
  destruct (UpdateCategory_trace Mem.renamed_default (Mem.world Mem.small)
              Mem.hydrated_default 7000)
    as (r & w' & evs & Hrun & Htr & _ & _ & _ & _ & Hmade); [reflexivity|].
  destruct (Hmade (cbCategory Mem.default_row) (w_store (Mem.world Mem.small))
              Mem.after_update Mem.written_default Mem.after_update)
    as (Hr & Hst & Hevs); [reflexivity..|].
  subst r. exists w'. split_and!; [exact Hrun|exact Hst|].
  rewrite Htr. exact Hevs.
Defined.

(** ** DeleteCategory *)

Section DeleteMore.

Context {S R : Type} `{!Store S} `{!Runtime R}.

Implicit Types (w : World (S:=S) (R:=R)) (s : S).
Implicit Types (userID teamID categoryID : string) (fuel : nat).
Implicit Types (cbs : list CategoryBoards).

(** X7. When the store cannot return the category (it does not exist, or the
    read fails), [DeleteCategory] returns the store's error as it is and
    does nothing else. *)
Theorem DeleteCategory_missing fuel categoryID userID teamID w err s1 :
  storeGetCategory categoryID (w_store w) = (inl err, s1) →
  DeleteCategory fuel categoryID userID teamID w =
  Some (inl err, after w s1 (w_runtime w) [CallGetCategory categoryID]).
Proof. intros Eget. by rewrite (DeleteCategory_read _ _ _ _ _ _ _ Eget). Qed.

(** X8. Every run of [DeleteCategory] starts with the read of the record.
    Its writes are the store's delete of that category and those of the
    migration.  A notification is started only after the store's delete and
    the read back that follows it, as the last thing the call does, and it
    carries the record the call returns. *)
Theorem DeleteCategory_trace fuel categoryID userID teamID w r w' :
  DeleteCategory fuel categoryID userID teamID w = Some (r, w') →
  ∃ evs,
    w_trace w' = w_trace w ++ CallGetCategory categoryID :: evs
    ∧ (∀ e, e ∈ evs → is_write e = true →
         e = CallDeleteCategory categoryID userID teamID ∨ is_migration e = true)
    ∧ (∀ n, Go n ∈ evs →
         ∃ deleted pre,
           r = inr deleted
           ∧ n = BroadcastCategoryChange deleted
           ∧ evs = pre ++ [CallDeleteCategory categoryID userID teamID;
                           CallGetCategory categoryID; Go n]
           ∧ Forall (λ e, is_migration e = true) pre).
Proof.
  destruct (storeGetCategory categoryID (w_store w)) as [r0 s1] eqn:Eget.
  rewrite (DeleteCategory_read _ _ _ _ _ _ _ Eget). cbn zeta.
  assert (Hread : ∀ r1 : error + Category,
    Some (r1, after w s1 (w_runtime w) [CallGetCategory categoryID]) = Some (r, w') →
    ∃ evs,
      w_trace w' = w_trace w ++ CallGetCategory categoryID :: evs
      ∧ (∀ e, e ∈ evs → is_write e = true →
           e = CallDeleteCategory categoryID userID teamID ∨ is_migration e = true)
      ∧ (∀ n, Go n ∈ evs →
           ∃ deleted pre,
             r = inr deleted
             ∧ n = BroadcastCategoryChange deleted
             ∧ evs = pre ++ [CallDeleteCategory categoryID userID teamID;
                             CallGetCategory categoryID; Go n]
             ∧ Forall (λ e, is_migration e = true) pre)).
  { intros r1 [= <- <-]. exists []. split; [done|].
    split; intros ? He; by apply elem_of_nil in He. }
  destruct r0 as [err|existing]; [apply Hread|].
  case_bool_decide; [apply Hread|].
  case_bool_decide; [apply Hread|].
  case_bool_decide; [apply Hread|].
  case_bool_decide; [apply Hread|].
  clear Hread.
  destruct (moveBoardsToDefaultCategory _ _ _ _ _) as [[merr w2]|] eqn:Emove; [|done].
  apply moveBoardsToDefaultCategory_trace in Emove as (mig & Hmig & Hforall).
  simpl in Hmig.
  assert (Hmig' : Forall (λ e, is_migration e = true) mig).
  { eapply Forall_impl; [exact Hforall|]. by intros e [? _]. }
  assert (Hnogo : ∀ n, Go n ∉ mig).
  { intros n Hin. eapply Forall_forall in Hmig'; [|exact Hin]. done. }
  assert (Hshape : ∀ tail,
    (∀ e, e ∈ tail → is_write e = true →
       e = CallDeleteCategory categoryID userID teamID) →
    (∀ n, Go n ∈ tail →
       ∃ deleted, r = inr deleted ∧ n = BroadcastCategoryChange deleted
         ∧ tail = [CallDeleteCategory categoryID userID teamID;
                   CallGetCategory categoryID; Go n]) →
    w_trace w' = w_trace w2 ++ tail →
    ∃ evs,
      w_trace w' = w_trace w ++ CallGetCategory categoryID :: evs
      ∧ (∀ e, e ∈ evs → is_write e = true →
           e = CallDeleteCategory categoryID userID teamID ∨ is_migration e = true)
      ∧ (∀ n, Go n ∈ evs →
           ∃ deleted pre,
             r = inr deleted
             ∧ n = BroadcastCategoryChange deleted
             ∧ evs = pre ++ [CallDeleteCategory categoryID userID teamID;
                             CallGetCategory categoryID; Go n]
             ∧ Forall (λ e, is_migration e = true) pre)).
  { intros tail Hw Hgo Htr. exists (mig ++ tail). split_and!.
    - rewrite Htr, Hmig. rewrite <- !app_assoc. done.
    - intros e He Hwr. apply elem_of_app in He as [He|He].
      + right. eapply Forall_forall in Hmig'; [|exact He]. done.
      + left. by apply Hw.
    - intros n He. apply elem_of_app in He as [He|He]; [by apply Hnogo in He|].
      destruct (Hgo n He) as (deleted & -> & -> & ->).
      by exists deleted, mig. }
  destruct merr as [err|].
  { intros [= <- <-]. apply (Hshape []); [| |by rewrite app_nil_r];
      intros ? He; by apply elem_of_nil in He. }
  unfold bind, a_store_DeleteCategory, a_store_GetCategory, call, go, ret.
  destruct (storeDeleteCategory _ _ _ _) as [[err|] s3]; simpl.
  { intros [= <- <-]. eapply (Hshape [_]); [| |done].
    - intros e He _. by split_elem He.
    - intros n He. split_elem He. }
  destruct (storeGetCategory categoryID s3) as [[err|deleted] s4]; simpl.
  { intros [= <- <-]. eapply (Hshape [_; _]); [| |simpl; by rewrite <- app_assoc].
    - intros e He Hwr. by split_elem He.
    - intros n He. split_elem He. }
  intros [= <- <-]. eapply (Hshape [_; _; _]); [| |simpl; by rewrite <- !app_assoc].
  - intros e He Hwr. by split_elem He.
  - intros n He. split_elem He. by exists deleted.
Qed.

(** X9. Once the migration has succeeded, [DeleteCategory] asks the store to
    delete.  If that fails, the error is returned and nothing more is done:
    the boards stay moved.  Otherwise the record is read back: a failure of
    that read is returned without a notification; a record read back is
    broadcast and returned, so the caller gets the record as the store holds
    it after the delete. *)
Theorem DeleteCategory_after_migration fuel categoryID userID teamID w existing s1 w2 :
  storeGetCategory categoryID (w_store w) = (inr existing, s1) →
  DeleteAt existing = 0 →
  UserID existing = userID →
  TeamID existing = teamID →
  Type_ existing ≠ CategoryTypeSystem →
  moveBoardsToDefaultCategory fuel userID teamID categoryID
    (after w s1 (w_runtime w) [CallGetCategory categoryID]) = Some (None, w2) →
  (∀ err s3,
     storeDeleteCategory categoryID userID teamID (w_store w2) = (Some err, s3) →
     DeleteCategory fuel categoryID userID teamID w =
     Some (inl err,
           after w2 s3 (w_runtime w2) [CallDeleteCategory categoryID userID teamID]))
  ∧ (∀ s3 err s4,
       storeDeleteCategory categoryID userID teamID (w_store w2) = (None, s3) →
       storeGetCategory categoryID s3 = (inl err, s4) →
       DeleteCategory fuel categoryID userID teamID w =
       Some (inl err,
             after w2 s4 (w_runtime w2)
               [CallDeleteCategory categoryID userID teamID;
                CallGetCategory categoryID]))
  ∧ (∀ s3 deleted s4,
       storeDeleteCategory categoryID userID teamID (w_store w2) = (None, s3) →
       storeGetCategory categoryID s3 = (inr deleted, s4) →
       DeleteCategory fuel categoryID userID teamID w =
       Some (inr deleted,
             after w2 s4 (w_runtime w2)
               [CallDeleteCategory categoryID userID teamID;
                CallGetCategory categoryID;
                Go (BroadcastCategoryChange deleted)])).
Proof.
  intros Eget Hdel Hu Ht Hty Emove.
  rewrite (DeleteCategory_read _ _ _ _ _ _ _ Eget). cbn zeta.
  rewrite bool_decide_eq_false_2 by (intros ?; done).
  rewrite bool_decide_eq_false_2 by (intros ?; done).
  rewrite bool_decide_eq_false_2 by (intros ?; done).
  rewrite bool_decide_eq_false_2 by done.
  rewrite Emove. split_and!.
  - intros err s3 Edel. by step_call Edel.
  - intros s3 err s4 Edel Eget2. step_call Edel. step_call Eget2.
    unfold ret. by rewrite after_after.
  - intros s3 deleted s4 Edel Eget2. step_call Edel. step_call Eget2.
    rewrite run_go. unfold ret. by rewrite !after_after.
Qed.

End DeleteMore.

Lemma DeleteCategory_missing_witness :
  storeGetCategory "x" (w_store (Mem.world Mem.small))
    = (inl (ErrOther "category not found"), w_store (Mem.world Mem.small))
  ∧ DeleteCategory 1 "x" "u1" "t1" (Mem.world Mem.small) =
    Some (inl (ErrOther "category not found"),
          after (Mem.world Mem.small) (w_store (Mem.world Mem.small)) 7000
            [CallGetCategory "x"]).
Proof.
  split; [reflexivity|].
  apply (DeleteCategory_missing 1 "x" "u1" "t1" (Mem.world Mem.small)
           (ErrOther "category not found") (w_store (Mem.world Mem.small))).
  reflexivity.
Defined.

Lemma DeleteCategory_trace_witness :
  DeleteCategory 1 "w" "u1" "t1" (Mem.world Mem.small)
    = Some (inr Mem.deleted_work, Mem.after_delete)
  ∧ ∃ evs,
      w_trace Mem.after_delete = CallGetCategory "w" :: evs
      ∧ (∀ e, e ∈ evs → is_write e = true →
           e = CallDeleteCategory "w" "u1" "t1" ∨ is_migration e = true).
Proof.
  assert (Hrun : DeleteCategory 1 "w" "u1" "t1" (Mem.world Mem.small)
                 = Some (inr Mem.deleted_work, Mem.after_delete)) by reflexivity.
  split; [exact Hrun|].
  destruct (DeleteCategory_trace 1 "w" "u1" "t1" (Mem.world Mem.small)
              (inr Mem.deleted_work) Mem.after_delete Hrun) as (evs & Htr & Hw & _).
  by exists evs.
Defined.

Lemma DeleteCategory_after_migration_witness :
  storeGetCategory "w" (w_store (Mem.world Mem.small))
    = (inr (cbCategory Mem.work_row), w_store (Mem.world Mem.small))
  ∧ DeleteAt (cbCategory Mem.work_row) = 0
  ∧ UserID (cbCategory Mem.work_row) = "u1"
  ∧ TeamID (cbCategory Mem.work_row) = "t1"
  ∧ Type_ (cbCategory Mem.work_row) ≠ CategoryTypeSystem
  ∧ moveBoardsToDefaultCategory 1 "u1" "t1" "w" Mem.after_read_work
    = Some (None, Mem.after_migration)
  ∧ storeDeleteCategory "w" "u1" "t1" (w_store Mem.after_migration)
    = (None, w_store Mem.after_delete)
  ∧ storeGetCategory "w" (w_store Mem.after_delete)
    = (inr Mem.deleted_work, w_store Mem.after_delete)
  ∧ DeleteCategory 1 "w" "u1" "t1" (Mem.world Mem.small) =
    Some (inr Mem.deleted_work,
          after Mem.after_migration (w_store Mem.after_delete) 7000
            [CallDeleteCategory "w" "u1" "t1"; CallGetCategory "w";
             Go (BroadcastCategoryChange Mem.deleted_work)]).
Proof.
  do 4 (split; [reflexivity|]). split; [done|]. do 3 (split; [reflexivity|]).
  destruct (DeleteCategory_after_migration 1 "w" "u1" "t1" (Mem.world Mem.small)
              (cbCategory Mem.work_row) (w_store (Mem.world Mem.small))
              Mem.after_migration)
    as (_ & _ & Hok);
    [reflexivity | reflexivity | reflexivity | reflexivity | done | reflexivity |].
  apply (Hok (w_store Mem.after_delete) Mem.deleted_work (w_store Mem.after_delete));
    reflexivity.
Defined.

(** ** moveBoardsToDefaultCategory *)

Section MigrationMore.

Context {S R : Type} `{!Store S} `{!Runtime R}.

Implicit Types (w : World (S:=S) (R:=R)) (s : S).
Implicit Types (userID teamID categoryID : string) (fuel n : nat).
Implicit Types (cbs : list CategoryBoards) (src : CategoryBoards) (d : string).

(** The closure over a listing in which the source category, where it
    occurs, is [src], and the categories bearing the default name have the
    identifier [d]: what it has captured at any point is nil or [src], and
    the empty string or [d]. *)
Lemma moveBoards_fn_scan categoryID src d cbs :
  ID (cbCategory src) = categoryID →
  d ≠ "" →
  (∀ cb, cb ∈ cbs → ID (cbCategory cb) = categoryID → cb = src) →
  (∀ cb, cb ∈ cbs → Name (cbCategory cb) = defaultCategoryBoards →
         ID (cbCategory cb) = d) →
  ∀ (got0 : option CategoryBoards) (d0 : string),
    got0 = None ∨ got0 = Some src →
    d0 = "" ∨ d0 = d →
    ∃ out got' d',
      range_visit (moveBoards_fn categoryID) cbs (got0, d0) = (out, (got', d'))
      ∧ (out = None ∨ out = Some None)
      ∧ (got0 = Some src ∨ (∃ cb, cb ∈ cbs ∧ ID (cbCategory cb) = categoryID) →
         got' = Some src)
      ∧ (d0 = d ∨ (∃ cb, cb ∈ cbs ∧ Name (cbCategory cb) = defaultCategoryBoards) →
         d' = d).
Proof.
  intros Hsrc Hd. induction cbs as [|cb cbs IH]; intros Hone Hdef got0 d0 Hs0 Hd0;
    cbn [range_visit].
  - exists None, got0, d0. split_and!; [done|by left| |].
    + intros [->|(cb & Hin & _)]; [done|by apply elem_of_nil in Hin].
    + intros [->|(cb & Hin & _)]; [done|by apply elem_of_nil in Hin].
  - rewrite moveBoards_fn_eq. cbn zeta.
    set (got1 := if bool_decide (ID (cbCategory cb) = categoryID) then Some cb else got0).
    set (d1 := if bool_decide (Name (cbCategory cb) = defaultCategoryBoards)
               then ID (cbCategory cb) else d0).
    assert (Hs1 : got1 = None ∨ got1 = Some src).
    { subst got1. case_bool_decide as Hid; [|done]. right. f_equal.
      apply Hone; [apply elem_of_cons; by left|done]. }
    assert (Hd1 : d1 = "" ∨ d1 = d).
    { subst d1. case_bool_decide as Hname; [|done]. right.
      apply Hdef; [apply elem_of_cons; by left|done]. }
    assert (Hs1' : got0 = Some src ∨ ID (cbCategory cb) = categoryID → got1 = Some src).
    { subst got1. intros [->|Hid].
      - case_bool_decide as Hid; [|done]. f_equal.
        apply Hone; [apply elem_of_cons; by left|done].
      - rewrite bool_decide_eq_true_2 by done. f_equal.
        apply Hone; [apply elem_of_cons; by left|done]. }
    assert (Hd1' : d0 = d ∨ Name (cbCategory cb) = defaultCategoryBoards → d1 = d).
    { subst d1. intros [->|Hname].
      - case_bool_decide as Hname; [|done].
        apply Hdef; [apply elem_of_cons; by left|done].
      - rewrite bool_decide_eq_true_2 by done.
        apply Hdef; [apply elem_of_cons; by left|done]. }
    clearbody got1 d1.
    destruct (bool_decide (got1 ≠ None) && bool_decide (d1 ≠ "")) eqn:Eboth; simpl.
    + apply andb_true_iff in Eboth as [Hs Hdd].
      apply bool_decide_eq_true in Hs. apply bool_decide_eq_true in Hdd.
      exists (Some None), got1, d1. split_and!; [done|by right| |].
      * intros _. by destruct Hs1.
      * intros _. by destruct Hd1.
    + destruct (IH (λ cb' Hin, Hone cb' (proj2 (elem_of_cons _ _ _) (or_intror Hin)))
                   (λ cb' Hin, Hdef cb' (proj2 (elem_of_cons _ _ _) (or_intror Hin)))
                   got1 d1 Hs1 Hd1) as (out & got' & d' & Hrun & Hout & Hs' & Hd').
      exists out, got', d'. split_and!; [done|done| |].
      * intros [Hs0'|(cb' & Hin & Hid)]; apply Hs'; [left; apply Hs1'; by left|].
        apply elem_of_cons in Hin as [->|Hin]; [left; apply Hs1'; by right|].
        right. by exists cb'.
      * intros [Hd0'|(cb' & Hin & Hname)]; apply Hd'; [left; apply Hd1'; by left|].
        apply elem_of_cons in Hin as [->|Hin]; [left; apply Hd1'; by right|].
        right. by exists cb'.
Qed.

(** X10. Shown a listing that holds the source category (once, or as equal
    copies) and in which the categories bearing the default name all have
    the same non-empty identifier, the closure of the migration ends up
    holding that source category and that identifier, whether it stopped
    the enumeration early or saw the whole listing; it never reports an
    error. *)
Theorem moveBoards_fn_finds categoryID src d cbs :
  src ∈ cbs →
  ID (cbCategory src) = categoryID →
  (∀ cb, cb ∈ cbs → ID (cbCategory cb) = categoryID → cb = src) →
  d ≠ "" →
  (∃ cb, cb ∈ cbs ∧ Name (cbCategory cb) = defaultCategoryBoards) →
  (∀ cb, cb ∈ cbs → Name (cbCategory cb) = defaultCategoryBoards →
         ID (cbCategory cb) = d) →
  ∃ out,
    range_visit (moveBoards_fn categoryID) cbs (None, "") = (out, (Some src, d))
    ∧ (out = None ∨ out = Some None).
Proof.
  intros Hin Hsrc Hone Hd Hex Hdef.
  destruct (moveBoards_fn_scan categoryID src d cbs Hsrc Hd Hone Hdef None "")
    as (out & got & d' & Hrun & Hout & Hs' & Hd'); [by left|by left|].
  exists out. split; [|done].
  rewrite Hrun, Hs', Hd'; [done|by right|right; by exists src].
Qed.

(** A listing is read up to the page on which the visitor signals, or to its
    last page. *)
Lemma forEachPage_all_pages_any {T A} (ev : QueryUserCategoriesOptions → Event)
    (get : QueryUserCategoriesOptions → S → (error + list T) * S)
    (fn : Visitor T A) page s n xs s' :
  all_pages get page s n xs s' →
  ∀ acc out acc' fuel w,
    w_store w = s →
    range_visit fn xs acc = (out, acc') →
    (n ≤ fuel)%nat →
    ∃ m s'',
      (1 ≤ m ≤ n)%nat
      ∧ forEachPage ev get fuel page fn acc w =
        Some ((match out with Some r => r | None => None end, acc'),
              after w s'' (w_runtime w) (page_calls ev page m)).
Proof.
  induction 1 as [page s xs s' Eget Hshort|page s xs s' n rest s'' Eget Hfull _ IH];
    intros acc out acc' fuel w Hs Hvisit Hfuel;
    (destruct fuel as [|fuel]; [lia|]); rewrite forEachPage_step; simpl;
    rewrite Hs, Eget; simpl.
  - rewrite Hvisit. exists 1%nat, s'. split; [lia|].
    destruct out as [r|]; [done|]. by rewrite bool_decide_eq_true_2.
  - rewrite range_visit_app in Hvisit.
    destruct (range_visit fn xs acc) as [[r|] acc1].
    + injection Hvisit as <- <-. exists 1%nat, s'. split; [lia|done].
    + rewrite bool_decide_eq_false_2 by lia.
      destruct (IH acc1 out acc' fuel
                  (after w s' (w_runtime w)
                     [ev (mkQueryUserCategoriesOptions page perPage)]))
        as (m & s3 & Hm & Hrun); [reflexivity|exact Hvisit|lia|].
      rewrite Hrun. exists (Datatypes.S m), s3. split; [lia|].
      by rewrite after_after.
Qed.

(** X11. When the store lists the scope's category boards and the listing
    is as in X10, the migration reads pages of that listing and then makes
    one reassignment: the board identifiers of the source category, in
    their order, go to the category with the default name, for the team and
    the user of the call.  A failure of the reassignment is returned
    wrapped; otherwise the migration returns nil. *)
Theorem moveBoardsToDefaultCategory_moves
    fuel userID teamID categoryID w n cbs s' src d :
  all_pages (storeGetUserCategoryBoards userID teamID) 0 (w_store w) n cbs s' →
  (n ≤ fuel)%nat →
  src ∈ cbs →
  ID (cbCategory src) = categoryID →
  (∀ cb, cb ∈ cbs → ID (cbCategory cb) = categoryID → cb = src) →
  d ≠ "" →
  (∃ cb, cb ∈ cbs ∧ Name (cbCategory cb) = defaultCategoryBoards) →
  (∀ cb, cb ∈ cbs → Name (cbCategory cb) = defaultCategoryBoards →
         ID (cbCategory cb) = d) →
  ∃ m s1,
    (1 ≤ m ≤ n)%nat
    ∧ moveBoardsToDefaultCategory fuel userID teamID categoryID w =
      let w1 := after w s1 (w_runtime w)
                  (page_calls (CallGetUserCategoryBoards userID teamID) 0 m) in
      let boardIDs := map BoardID (BoardMetadata src) in
      Some (match (storeAddUpdateUserCategoryBoard teamID userID d boardIDs s1).1 with
            | Some err => Some (Errorf "moveBoardsToDefaultCategory: %w" err [])
            | None => None
            end,
            after w1 (storeAddUpdateUserCategoryBoard teamID userID d boardIDs s1).2
              (w_runtime w)
              [CallAddUpdateUserCategoryBoard teamID userID d boardIDs]).
Proof.
  intros Hpages Hfuel Hin Hsrc Hone Hd Hex Hdef.
  destruct (moveBoards_fn_scan categoryID src d cbs Hsrc Hd Hone Hdef None "")
    as (out & got & d0 & Hvisit & Hout & Hs' & Hd'); [by left|by left|].
  rewrite Hs' in Hvisit by (right; by exists src).
  rewrite Hd' in Hvisit by (by right).
  destruct (forEachPage_all_pages_any (CallGetUserCategoryBoards userID teamID)
              _ _ _ _ _ _ _ Hpages (None, "") out (Some src, d) fuel w eq_refl
              Hvisit Hfuel) as (m & s1 & Hm & Hrun).
  exists m, s1. split; [exact Hm|].
  unfold moveBoardsToDefaultCategory, ForEachUserCategoryBoard, bind.
  rewrite ForEachUserCategoryBoard_from_forEachPage, Hrun.
  replace (match out with Some r => r | None => None end) with (@None error)
    by (by destruct Hout as [->| ->]).
  rewrite bool_decide_eq_false_2 by done.
  unfold AddUpdateUserCategoryBoard, a_store_AddUpdateUserCategoryBoard, call. simpl.
  destruct (storeAddUpdateUserCategoryBoard _ _ _ _ _) as [[err|] s2]; simpl;
    unfold ret, after; simpl; by rewrite <- app_assoc.
Qed.

End MigrationMore.

Lemma moveBoards_fn_finds_witness :
  Mem.work_row ∈ Mem.small
  ∧ ID (cbCategory Mem.work_row) = "w"
  ∧ (∀ cb, cb ∈ Mem.small → ID (cbCategory cb) = "w" → cb = Mem.work_row)
  ∧ "d" ≠ ""
  ∧ (∃ cb, cb ∈ Mem.small ∧ Name (cbCategory cb) = defaultCategoryBoards)
  ∧ (∀ cb, cb ∈ Mem.small → Name (cbCategory cb) = defaultCategoryBoards →
           ID (cbCategory cb) = "d")
  ∧ ∃ out,
      range_visit (moveBoards_fn "w") Mem.small (None, "") = (out, (Some Mem.work_row, "d"))
      ∧ (out = None ∨ out = Some None).
Proof.
  assert (Hin : Mem.work_row ∈ Mem.small)
    by (apply elem_of_cons; right; apply elem_of_cons; by left).
  assert (Hone : ∀ cb, cb ∈ Mem.small → ID (cbCategory cb) = "w" → cb = Mem.work_row)
    by (intros cb He Hid; by split_elem He).
  assert (Hex : ∃ cb, cb ∈ Mem.small ∧ Name (cbCategory cb) = defaultCategoryBoards)
    by (exists Mem.default_row; split; [apply elem_of_cons; by left|reflexivity]).
  assert (Hdef : ∀ cb, cb ∈ Mem.small → Name (cbCategory cb) = defaultCategoryBoards →
                       ID (cbCategory cb) = "d")
    by (intros cb He Hname; by split_elem He).
  split; [exact Hin|]. split; [reflexivity|]. split; [exact Hone|]. split; [done|].
  split; [exact Hex|]. split; [exact Hdef|].
  apply (moveBoards_fn_finds "w" Mem.work_row "d" Mem.small Hin eq_refl Hone
           ltac:(done) Hex Hdef).
Defined.

Lemma moveBoardsToDefaultCategory_moves_witness :
  all_pages (storeGetUserCategoryBoards "u1" "t1") 0 (w_store (Mem.world Mem.small)) 1
    [Mem.default_row; Mem.work_row] (w_store (Mem.world Mem.small))
  ∧ (1 ≤ 1)%nat
  ∧ Mem.work_row ∈ [Mem.default_row; Mem.work_row]
  ∧ ID (cbCategory Mem.work_row) = "w"
  ∧ "d" ≠ ""
  ∧ ∃ w',
      moveBoardsToDefaultCategory 1 "u1" "t1" "w" (Mem.world Mem.small) = Some (None, w')
      ∧ w_trace w' =
        [CallGetUserCategoryBoards "u1" "t1" (mkQueryUserCategoriesOptions 0 50);
         CallAddUpdateUserCategoryBoard "t1" "u1" "d" ["b1"; "b2"]].
Proof.
  assert (Hpages : all_pages (storeGetUserCategoryBoards "u1" "t1") 0
            (w_store (Mem.world Mem.small)) 1
            [Mem.default_row; Mem.work_row] (w_store (Mem.world Mem.small)))
    by (apply all_pages_last; [reflexivity | done]).
  assert (Hin : Mem.work_row ∈ [Mem.default_row; Mem.work_row])
    by (apply elem_of_cons; right; apply elem_of_cons; by left).
  split; [exact Hpages|]. split; [lia|]. split; [exact Hin|]. split; [reflexivity|].
  split; [done|].
  destruct (moveBoardsToDefaultCategory_moves 1 "u1" "t1" "w" (Mem.world Mem.small)
              1 [Mem.default_row; Mem.work_row] (w_store (Mem.world Mem.small))
              Mem.work_row "d" Hpages (le_n 1) Hin eq_refl)
    as (m & s1 & Hm & Hrun).
  - intros cb He Hid. by split_elem He.
  - done.
  - exists Mem.default_row. split; [apply elem_of_cons; by left|reflexivity].
  - intros cb He Hname. by split_elem He.
  - assert (m = 1%nat) as -> by lia.
    eexists. split; [rewrite Hrun; reflexivity|reflexivity].
Defined.

(** ** ReorderCategories and its validation *)

Section ReorderMore.

Context {S R : Type} `{!Store S} `{!Runtime R}.

Implicit Types (w : World (S:=S) (R:=R)) (s : S).
Implicit Types (userID teamID : string) (fuel : nat).
Implicit Types (newCategoryOrder : list string) (categories : list Category).

Lemma errors_Is_wraps format cause args : errors_Is (Errorf format cause args) cause = true.
Proof.
  simpl. case_decide; [done|].
  destruct cause; simpl; try done; by case_decide.
Qed.

(** The loop over the proposed order stops at the first identifier that is
    not an existing one. *)
Lemma range_found_first (E : gset string) userID teamID pre id post :
  (∀ id', id' ∈ pre → id' ∈ E) →
  id ∉ E →
  range_found E userID teamID (pre ++ id :: post) = Some (errNotFound userID teamID id).
Proof.
  intros Hpre Hid. induction pre as [|id' pre IH]; simpl.
  - by rewrite bool_decide_eq_false_2.
  - rewrite bool_decide_eq_true_2 by (apply Hpre, elem_of_cons; by left).
    apply IH. intros id'' Hin. apply Hpre, elem_of_cons. by right.
Qed.

Lemma verifyNewCategoriesMatchExisting_reads_aux
    fuel userID teamID newCategoryOrder w verdict w' :
  verifyNewCategoriesMatchExisting fuel userID teamID newCategoryOrder w
    = Some (verdict, w') →
  ∃ s' n,
    (1 ≤ n ≤ fuel)%nat
    ∧ w' = after w s' (w_runtime w) (page_calls (CallGetUserCategories userID teamID) 0 n).
Proof.
  unfold verifyNewCategoriesMatchExisting, ForEachUserCategory, bind.
  rewrite ForEachUserCategory_from_forEachPage.
  destruct (forEachPage _ _ _ _ _ _ _) as [[[err E] w1]|] eqn:Escan; [|done].
  apply forEachPage_trace in Escan as (s' & n & -> & Hn).
  intros Hrun. exists s', n. split; [exact Hn|].
  destruct err as [err|]; [by injection Hrun as <- <-|].
  case_bool_decide; by injection Hrun as <- <-.
Qed.

(** X12. Whatever it answers, the validation only reads pages of the scope's
    categories, fifty at a time from page 0 on and at least one: it makes no
    write, starts no notification and does not use the clock. *)
Theorem verifyNewCategoriesMatchExisting_reads
    fuel userID teamID newCategoryOrder w verdict w' :
  verifyNewCategoriesMatchExisting fuel userID teamID newCategoryOrder w
    = Some (verdict, w') →
  ∃ s' n,
    (1 ≤ n ≤ fuel)%nat
    ∧ w' = after w s' (w_runtime w) (page_calls (CallGetUserCategories userID teamID) 0 n)
    ∧ Forall (λ e, is_write e = false ∧ is_notification e = false)
        (page_calls (CallGetUserCategories userID teamID) 0 n).
Proof.
  intros Hrun.
  apply verifyNewCategoriesMatchExisting_reads_aux in Hrun as (s' & n & Hn & ->).
  exists s', n. split; [exact Hn|]. split; [done|]. by apply Forall_page_calls.
Qed.

(** X13. When the enumeration of the categories returns an error,
    [ReorderCategories] returns it wrapped as "error fetching user
    categories", from the state the enumeration left: the proposed order is
    not looked at and the store is not asked to reorder. *)
Theorem ReorderCategories_listing_error
    fuel userID teamID newCategoryOrder w err E w1 :
  ForEachUserCategory fuel userID teamID verify_fn ∅ w = Some ((Some err, E), w1) →
  let wrapped := Errorf "error fetching user categories: %w" err [] in
  ReorderCategories fuel userID teamID newCategoryOrder w = Some (inl wrapped, w1)
  ∧ errors_Is wrapped err = true
  ∧ ∃ s' n, w1 = after w s' (w_runtime w)
                   (page_calls (CallGetUserCategories userID teamID) 0 n).
Proof.
  intros Hscan wrapped. split_and!.
  - unfold ReorderCategories, verifyNewCategoriesMatchExisting, bind.
    by rewrite Hscan.
  - apply errors_Is_wraps.
  - unfold ForEachUserCategory in Hscan.
    rewrite ForEachUserCategory_from_forEachPage in Hscan.
    apply forEachPage_trace in Hscan as (s' & n & -> & _). by exists s', n.
Qed.

(** X14. When the proposed order has the right length and names an
    identifier the store does not list, [ReorderCategories] fails with the
    not-found error for the first such identifier in the order, with the
    user and the team; it has only read the listing. *)
Theorem ReorderCategories_unknown_id
    fuel userID teamID w n categories s' pre id post :
  all_pages (storeGetUserCategories userID teamID) 0 (w_store w) n categories s' →
  (n ≤ fuel)%nat →
  length (pre ++ id :: post) = size (existing_ids categories) →
  (∀ id', id' ∈ pre → id' ∈ existing_ids categories) →
  id ∉ existing_ids categories →
  let err := Errorf "%w specified category ID: %s, userID: %s, teamID: %s"
               errCategoryNotFound
               [ArgString id; ArgString userID; ArgString teamID] in
  ReorderCategories fuel userID teamID (pre ++ id :: post) w =
    Some (inl err,
          after w s' (w_runtime w) (page_calls (CallGetUserCategories userID teamID) 0 n))
  ∧ errors_Is err errCategoryNotFound = true.
Proof.
  intros Hpages Hfuel Hlen Hpre Hid err. split; [|done].
  unfold ReorderCategories, bind.
  rewrite (verify_after_listing _ _ _ _ _ _ _ _ Hpages Hfuel).
  rewrite bool_decide_eq_false_2 by (intros Hne; by apply Hne).
  by rewrite (range_found_first _ _ _ _ _ _ Hpre Hid).
Qed.

(** X15. An order without duplicates that the validation accepts is a
    permutation of the identifiers the store lists: for such orders,
    acceptance and being a permutation are the same. *)
Theorem verifyNewCategoriesMatchExisting_NoDup
    fuel userID teamID newCategoryOrder w n categories s' w1 :
  all_pages (storeGetUserCategories userID teamID) 0 (w_store w) n categories s' →
  (n ≤ fuel)%nat →
  NoDup newCategoryOrder →
  verifyNewCategoriesMatchExisting fuel userID teamID newCategoryOrder w
    = Some (None, w1) →
  newCategoryOrder ≡ₚ elements (existing_ids categories).
Proof.
  intros Hpages Hfuel Hnodup.
  rewrite (verify_after_listing _ _ _ _ _ _ _ _ Hpages Hfuel).
  case_bool_decide as Hlen; [done|].
  intros [= Hfound _].
  pose proof (proj1 (range_found_None _ _ _ _) Hfound) as Hall.
  apply submseteq_length_Permutation.
  - apply NoDup_submseteq; [done|]. intros id Hin. by apply elem_of_elements, Hall.
  - unfold size, set_size in Hlen. simpl in Hlen. lia.
Qed.

(** X16. Every run of [ReorderCategories] reads pages of the listing and
    then does one of three things: nothing more, when the validation fails;
    one reorder call, with the caller's list, that fails; or that call
    followed by one notification, which carries the order the store
    returned, the team and the user.  In the first two cases the result is
    an error, in the third it is the store's order.  The result is bound to
    what the validation and the store answered: the validation's error; or
    the error of the store's reorder call, made in the state the validation
    left; or the order that call returned, which is also the order
    broadcast. *)
Theorem ReorderCategories_trace fuel userID teamID newCategoryOrder w r w' :
  ReorderCategories fuel userID teamID newCategoryOrder w = Some (r, w') →
  ∃ n tail,
    (1 ≤ n ≤ fuel)%nat
    ∧ w_trace w' =
      w_trace w ++ page_calls (CallGetUserCategories userID teamID) 0 n ++ tail
    ∧ ((tail = [] ∧ ∃ err, r = inl err)
       ∨ (tail = [CallReorderCategories userID teamID newCategoryOrder]
          ∧ ∃ err, r = inl err)
       ∨ (∃ newOrder,
            tail = [CallReorderCategories userID teamID newCategoryOrder;
                    Go (BroadcastCategoryReorder teamID userID newOrder)]
            ∧ r = inr newOrder))
    ∧ ∃ verdict s1,
        verifyNewCategoriesMatchExisting fuel userID teamID newCategoryOrder w
          = Some (verdict,
                  after w s1 (w_runtime w)
                    (page_calls (CallGetUserCategories userID teamID) 0 n))
        ∧ match verdict with
          | Some err => r = inl err ∧ tail = [] ∧ w_store w' = s1
          | None =>
              match (storeReorderCategories userID teamID newCategoryOrder s1).1 with
              | inl err =>
                  r = inl err
                  ∧ tail = [CallReorderCategories userID teamID newCategoryOrder]
              | inr newOrder =>
                  r = inr newOrder
                  ∧ tail = [CallReorderCategories userID teamID newCategoryOrder;
                            Go (BroadcastCategoryReorder teamID userID newOrder)]
              end
              ∧ w_store w' =
                (storeReorderCategories userID teamID newCategoryOrder s1).2
          end.
Proof.
  unfold ReorderCategories, bind at 1.
  destruct (verifyNewCategoriesMatchExisting _ _ _ _ _) as [[verdict w1]|] eqn:Everify;
    [|done].
  pose proof Everify as Hreads.
  apply verifyNewCategoriesMatchExisting_reads_aux in Hreads as (s' & n & Hn & ->).
  destruct verdict as [err|].
  { intros [= <- <-]. exists n, []. split; [exact Hn|]. simpl.
    rewrite app_nil_r. split; [done|]. split; [left; by eauto|].
    by exists (Some err), s'. }
  unfold bind, a_store_ReorderCategories, call, go, ret. simpl.
  destruct (storeReorderCategories _ _ _ _) as [[err|newOrder] s2] eqn:Ereorder; simpl;
    intros [= <- <-]; simpl.
  - exists n, [CallReorderCategories userID teamID newCategoryOrder].
    split; [exact Hn|]. split; [by rewrite <- app_assoc|].
    split; [right; left; by eauto|].
    exists None, s'. split; [done|]. by rewrite Ereorder.
  - exists n, [CallReorderCategories userID teamID newCategoryOrder;
               Go (BroadcastCategoryReorder teamID userID newOrder)].
    split; [exact Hn|]. split; [by rewrite <- !app_assoc|].
    split; [right; right; by eauto|].
    exists None, s'. split; [done|]. by rewrite Ereorder.
Qed.

End ReorderMore.

Lemma verifyNewCategoriesMatchExisting_reads_witness :
  verifyNewCategoriesMatchExisting 1 "u1" "t1" ["w"; "x"] (Mem.world Mem.small)
    = Some (Some (errNotFound "u1" "t1" "x"),
            after (Mem.world Mem.small) (w_store (Mem.world Mem.small)) 7000
              [CallGetUserCategories "u1" "t1" (mkQueryUserCategoriesOptions 0 50)])
  ∧ ∃ s' n,
      (1 ≤ n ≤ 1)%nat
      ∧ after (Mem.world Mem.small) (w_store (Mem.world Mem.small)) 7000
          [CallGetUserCategories "u1" "t1" (mkQueryUserCategoriesOptions 0 50)]
        = after (Mem.world Mem.small) s' 7000
            (page_calls (CallGetUserCategories "u1" "t1") 0 n).
Proof.
  assert (Hrun : verifyNewCategoriesMatchExisting 1 "u1" "t1" ["w"; "x"]
                   (Mem.world Mem.small)
    = Some (Some (errNotFound "u1" "t1" "x"),
            after (Mem.world Mem.small) (w_store (Mem.world Mem.small)) 7000
              [CallGetUserCategories "u1" "t1" (mkQueryUserCategoriesOptions 0 50)]))
    by (vm_compute; reflexivity).
  split; [exact Hrun|].
  destruct (verifyNewCategoriesMatchExisting_reads 1 "u1" "t1" ["w"; "x"]
              (Mem.world Mem.small) _ _ Hrun) as (s' & n & Hn & Hw & _).
  by exists s', n.
Defined.

Lemma ReorderCategories_listing_error_witness :
  ForEachUserCategory 2 "u1" "t1" verify_fn ∅ (Mock.world Mock.flaky)
    = Some ((Some (ErrOther "connection lost"),
             existing_ids (map cbCategory (take 50 Mem.large))),
            after (Mock.world Mock.flaky) Mock.flaky 7000
              [CallGetUserCategories "u1" "t1" (mkQueryUserCategoriesOptions 0 50);
               CallGetUserCategories "u1" "t1" (mkQueryUserCategoriesOptions 1 50)])
  ∧ ReorderCategories 2 "u1" "t1" ["d"] (Mock.world Mock.flaky)
    = Some (inl (Errorf "error fetching user categories: %w"
                   (ErrOther "connection lost") []),
            after (Mock.world Mock.flaky) Mock.flaky 7000
              [CallGetUserCategories "u1" "t1" (mkQueryUserCategoriesOptions 0 50);
               CallGetUserCategories "u1" "t1" (mkQueryUserCategoriesOptions 1 50)]).
Proof.
  assert (Hscan : ForEachUserCategory 2 "u1" "t1" verify_fn ∅ (Mock.world Mock.flaky)
    = Some ((Some (ErrOther "connection lost"),
             existing_ids (map cbCategory (take 50 Mem.large))),
            after (Mock.world Mock.flaky) Mock.flaky 7000
              [CallGetUserCategories "u1" "t1" (mkQueryUserCategoriesOptions 0 50);
               CallGetUserCategories "u1" "t1" (mkQueryUserCategoriesOptions 1 50)]))
    by (vm_compute; reflexivity).
  split; [exact Hscan|].
  apply (ReorderCategories_listing_error 2 "u1" "t1" ["d"] (Mock.world Mock.flaky)
           _ _ _ Hscan).
Defined.

Lemma ReorderCategories_unknown_id_witness :
  all_pages (storeGetUserCategories "u1" "t1") 0 (w_store (Mem.world Mem.small)) 1
    [cbCategory Mem.default_row; cbCategory Mem.work_row] (w_store (Mem.world Mem.small))
  ∧ (1 ≤ 1)%nat
  ∧ length (["w"] ++ "x" :: [])
    = size (existing_ids [cbCategory Mem.default_row; cbCategory Mem.work_row])
  ∧ (∀ id', id' ∈ ["w"] →
       id' ∈ existing_ids [cbCategory Mem.default_row; cbCategory Mem.work_row])
  ∧ ("x" ∉ existing_ids [cbCategory Mem.default_row; cbCategory Mem.work_row])
  ∧ ReorderCategories 1 "u1" "t1" (["w"] ++ "x" :: []) (Mem.world Mem.small) =
    Some (inl (Errorf "%w specified category ID: %s, userID: %s, teamID: %s"
                 errCategoryNotFound
                 [ArgString "x"; ArgString "u1"; ArgString "t1"]),
          after (Mem.world Mem.small) (w_store (Mem.world Mem.small)) 7000
            (page_calls (CallGetUserCategories "u1" "t1") 0 1)).
Proof.
  assert (Hpages : all_pages (storeGetUserCategories "u1" "t1") 0
            (w_store (Mem.world Mem.small)) 1
            [cbCategory Mem.default_row; cbCategory Mem.work_row]
            (w_store (Mem.world Mem.small)))
    by (apply all_pages_last; [reflexivity | done]).
  assert (Hlen : length (["w"] ++ "x" :: [])
            = size (existing_ids [cbCategory Mem.default_row; cbCategory Mem.work_row]))
    by (vm_compute; reflexivity).
  assert (Hpre : ∀ id', id' ∈ ["w"] →
            id' ∈ existing_ids [cbCategory Mem.default_row; cbCategory Mem.work_row]).
  { intros id' Hin. split_elem Hin. apply (bool_decide_unpack _). by vm_compute. }
  assert (Hid : "x" ∉ existing_ids [cbCategory Mem.default_row; cbCategory Mem.work_row]).
  { apply (bool_decide_unpack _). by vm_compute. }
  split; [exact Hpages|]. split; [lia|]. split; [exact Hlen|]. split; [exact Hpre|].
  split; [exact Hid|].
  apply (ReorderCategories_unknown_id 1 "u1" "t1" (Mem.world Mem.small) 1 _ _
           ["w"] "x" [] Hpages (le_n 1) Hlen Hpre Hid).
Defined.

Lemma verifyNewCategoriesMatchExisting_NoDup_witness :
  all_pages (storeGetUserCategories "u1" "t1") 0 (w_store (Mem.world Mem.small)) 1
    [cbCategory Mem.default_row; cbCategory Mem.work_row] (w_store (Mem.world Mem.small))
  ∧ (1 ≤ 1)%nat
  ∧ NoDup ["w"; "d"]
  ∧ verifyNewCategoriesMatchExisting 1 "u1" "t1" ["w"; "d"] (Mem.world Mem.small)
    = Some (None,
            after (Mem.world Mem.small) (w_store (Mem.world Mem.small)) 7000
              [CallGetUserCategories "u1" "t1" (mkQueryUserCategoriesOptions 0 50)])
  ∧ ["w"; "d"] ≡ₚ elements (existing_ids [cbCategory Mem.default_row; cbCategory Mem.work_row]).
Proof.
  assert (Hpages : all_pages (storeGetUserCategories "u1" "t1") 0
            (w_store (Mem.world Mem.small)) 1
            [cbCategory Mem.default_row; cbCategory Mem.work_row]
            (w_store (Mem.world Mem.small)))
    by (apply all_pages_last; [reflexivity | done]).
  assert (Hnodup : NoDup ["w"; "d"]).
  { apply (bool_decide_unpack _). by vm_compute. }
  assert (Hrun : verifyNewCategoriesMatchExisting 1 "u1" "t1" ["w"; "d"]
                   (Mem.world Mem.small)
    = Some (None,
            after (Mem.world Mem.small) (w_store (Mem.world Mem.small)) 7000
              [CallGetUserCategories "u1" "t1" (mkQueryUserCategoriesOptions 0 50)]))
    by (vm_compute; reflexivity).
  split; [exact Hpages|]. split; [lia|]. split; [exact Hnodup|]. split; [exact Hrun|].
  exact (verifyNewCategoriesMatchExisting_NoDup 1 "u1" "t1" ["w"; "d"]
           (Mem.world Mem.small) 1 _ _ _ Hpages (le_n 1) Hnodup Hrun).
Defined.

Lemma ReorderCategories_trace_witness :
  ReorderCategories 1 "u1" "t1" ["w"; "d"] (Mock.world Mock.pinned)
    = Some (inr ["d"; "w"],
            after (Mock.world Mock.pinned) Mock.pinned 7000
              [CallGetUserCategories "u1" "t1" (mkQueryUserCategoriesOptions 0 50);
               CallReorderCategories "u1" "t1" ["w"; "d"];
               Go (BroadcastCategoryReorder "t1" "u1" ["d"; "w"])])
  ∧ ∃ n tail s1,
      (1 ≤ n ≤ 1)%nat
      ∧ [CallGetUserCategories "u1" "t1" (mkQueryUserCategoriesOptions 0 50);
         CallReorderCategories "u1" "t1" ["w"; "d"];
         Go (BroadcastCategoryReorder "t1" "u1" ["d"; "w"])]
        = page_calls (CallGetUserCategories "u1" "t1") 0 n ++ tail
      ∧ (storeReorderCategories "u1" "t1" ["w"; "d"] s1).1 = inr ["d"; "w"]
      ∧ tail = [CallReorderCategories "u1" "t1" ["w"; "d"];
                Go (BroadcastCategoryReorder "t1" "u1" ["d"; "w"])].
Proof.
  assert (Hrun : ReorderCategories 1 "u1" "t1" ["w"; "d"] (Mock.world Mock.pinned)
    = Some (inr ["d"; "w"],
            after (Mock.world Mock.pinned) Mock.pinned 7000
              [CallGetUserCategories "u1" "t1" (mkQueryUserCategoriesOptions 0 50);
               CallReorderCategories "u1" "t1" ["w"; "d"];
               Go (BroadcastCategoryReorder "t1" "u1" ["d"; "w"])]))
    by reflexivity.
  split; [exact Hrun|].
  destruct (ReorderCategories_trace 1 "u1" "t1" ["w"; "d"] (Mock.world Mock.pinned)
              _ _ Hrun) as (n & tail & Hn & Htr & _ & verdict & s1 & Hverify & Hbound).
  exists n, tail, s1. split; [exact Hn|]. split; [exact Htr|].
  destruct verdict as [err|]; [by destruct Hbound|].
  destruct Hbound as [Hbound _].
  destruct (storeReorderCategories "u1" "t1" ["w"; "d"] s1).1 as [err|newOrder];
    destruct Hbound as [Hr Htail]; [done|].
  injection Hr as <-. by split.
Defined.

(** ** ForEachUserCategory *)

Section EnumerationMore.

Context {S R : Type} `{!Store S} `{!Runtime R}.
Context {A : Type}.

Implicit Types (w : World (S:=S) (R:=R)) (s : S) (fn : Visitor Category A) (acc : A).
Implicit Types (userID teamID : string) (fuel : nat).

(** A visitor that never signals is applied to every item, in order. *)
Lemma range_visit_quiet fn (xs : list Category) :
  (∀ c a, (fn c a).1 = (false, None)) →
  ∀ acc, range_visit fn xs acc = (None, foldl (λ a c, (fn c a).2) acc xs).
Proof.
  intros Hquiet. induction xs as [|x xs IH]; intros acc; simpl; [done|].
  specialize (Hquiet x acc). destruct (fn x acc) as [[done err] acc1].
  simpl in Hquiet. injection Hquiet as -> ->. simpl. apply IH.
Qed.

(** X17. A visitor that never signals is shown every category the store
    lists, once and in the order of the listing, page after page; the
    enumeration then returns nil, having read exactly the pages of the
    listing. *)
Theorem ForEachUserCategory_visits_all fuel userID teamID fn acc w n categories s' :
  all_pages (storeGetUserCategories userID teamID) 0 (w_store w) n categories s' →
  (n ≤ fuel)%nat →
  (∀ c a, (fn c a).1 = (false, None)) →
  ForEachUserCategory fuel userID teamID fn acc w =
  Some ((None, foldl (λ a c, (fn c a).2) acc categories),
        after w s' (w_runtime w) (page_calls (CallGetUserCategories userID teamID) 0 n)).
Proof.
  intros Hpages Hfuel Hquiet. unfold ForEachUserCategory.
  rewrite ForEachUserCategory_from_forEachPage.
  erewrite forEachPage_all_pages;
    [done|exact Hpages|reflexivity|by apply range_visit_quiet|exact Hfuel].
Qed.

(** X18. The loop has no bound of its own: against a store that keeps
    answering with full pages, and with a visitor that never signals,
    [ForEachUserCategory] does not return, however many turns it is
    given. *)
Theorem ForEachUserCategory_endless userID teamID fn (Inv : S → Prop) :
  (∀ page s, Inv s →
     ∃ categories s',
       storeGetUserCategories userID teamID
         (mkQueryUserCategoriesOptions page perPage) s = (inr categories, s')
       ∧ (50 ≤ length categories)%nat
       ∧ Inv s') →
  (∀ c a, (fn c a).1 = (false, None)) →
  ∀ fuel acc w,
    Inv (w_store w) →
    ForEachUserCategory fuel userID teamID fn acc w = None.
Proof.
  intros Hfull Hquiet fuel acc w. unfold ForEachUserCategory.
  rewrite ForEachUserCategory_from_forEachPage. generalize 0 as page.
  revert acc w. induction fuel as [|fuel IH]; intros acc w page Hinv; [done|].
  rewrite forEachPage_step. cbn zeta.
  destruct (Hfull page (w_store w) Hinv) as (categories & s' & Eget & Hlen & Hinv').
  rewrite Eget. cbn [fst snd].
  rewrite (range_visit_quiet fn categories Hquiet).
  rewrite bool_decide_eq_false_2 by (unfold perPage; lia).
  by apply IH.
Qed.

End EnumerationMore.

Lemma ForEachUserCategory_visits_all_witness :
  all_pages (storeGetUserCategories "u1" "t1") 0 (w_store (Mem.world Mem.large)) 2
    (map cbCategory (take 50 Mem.large) ++ map cbCategory (drop 50 Mem.large))
    (w_store (Mem.world Mem.large))
  ∧ (2 ≤ 2)%nat
  ∧ (∀ c a, (verify_fn c a).1 = (false, None))
  ∧ ForEachUserCategory 2 "u1" "t1" verify_fn ∅ (Mem.world Mem.large) =
    Some ((None,
           foldl (λ a c, (verify_fn c a).2) ∅
             (map cbCategory (take 50 Mem.large) ++ map cbCategory (drop 50 Mem.large))),
          after (Mem.world Mem.large) (w_store (Mem.world Mem.large)) 7000
            (page_calls (CallGetUserCategories "u1" "t1") 0 2)).
Proof.
  assert (Hpages : all_pages (storeGetUserCategories "u1" "t1") 0
            (w_store (Mem.world Mem.large)) 2
            (map cbCategory (take 50 Mem.large) ++ map cbCategory (drop 50 Mem.large))
            (w_store (Mem.world Mem.large))).
  { eapply all_pages_next; [reflexivity | by vm_compute |].
    apply all_pages_last; [reflexivity | by vm_compute]. }
  split; [exact Hpages|]. split; [lia|]. split; [done|].
  apply (ForEachUserCategory_visits_all 2 "u1" "t1" verify_fn ∅ (Mem.world Mem.large)
           2 _ _ Hpages (le_n 2)).
  done.
Defined.

Lemma ForEachUserCategory_endless_witness :
  (∀ page s, s = Mock.endless →
     ∃ categories s',
       storeGetUserCategories "u1" "t1" (mkQueryUserCategoriesOptions page perPage) s
         = (inr categories, s')
       ∧ (50 ≤ length categories)%nat
       ∧ s' = Mock.endless)
  ∧ (∀ c a, (verify_fn c a).1 = (false, None))
  ∧ w_store (Mock.world Mock.endless) = Mock.endless
  ∧ ForEachUserCategory 1000 "u1" "t1" verify_fn ∅ (Mock.world Mock.endless) = None.
Proof.
  assert (Hfull : ∀ page s, s = Mock.endless →
     ∃ categories s',
       storeGetUserCategories "u1" "t1" (mkQueryUserCategoriesOptions page perPage) s
         = (inr categories, s')
       ∧ (50 ≤ length categories)%nat
       ∧ s' = Mock.endless).
  { intros page s ->. eexists _, _. split; [reflexivity|]. split; [|done].
    vm_compute. lia. }
  split; [exact Hfull|]. split; [done|]. split; [reflexivity|].
  apply (ForEachUserCategory_endless "u1" "t1" verify_fn (λ s, s = Mock.endless) Hfull);
    done.
Defined.
